(** * ics_caldav_sync: a shallow embedding of [ICSToCalDAV] and [main]

    The program downloads an ICS calendar and pushes its events into a
    CalDAV calendar, then removes from the CalDAV calendar the events the
    ICS calendar no longer has.  The embedding follows
    [ics_caldav_sync.py]: datetimes as the code sees them (wall-clock
    fields plus an optional [tzinfo]), events as the fields the code reads,
    the CalDAV server as a store of resources, and the two loops of
    [synchronise] as computations in a state-and-exception monad that
    records every request sent to the server. *)

From Stdlib Require Import ZArith String List.
From stdpp Require Import base option gmap sets list strings fin_maps.

Local Open Scope string_scope.
Local Open Scope Z_scope.
Local Open Scope list_scope.

(** ** Python datetimes *)

Module Datetime.

(** A [tzinfo] object, as far as the program uses one: its [utcoffset]
    method, which receives the wall-clock fields of the datetime and may
    answer [None].  Offsets and wall-clock values count microseconds. *)
Record tzinfo := TZInfo { tz_utcoffset : Z -> option Z }.

(** [datetime.datetime]: wall-clock fields and the [tzinfo] attribute. *)
Record datetime := DateTime { wall : Z; dt_tzinfo : option tzinfo }.

(** [datetime.timezone.utc] *)
Definition timezone_utc : tzinfo := TZInfo (fun _ => Some 0).

(** [d.tzinfo.utcoffset(d)], [None] when [d.tzinfo] is [None]. *)
Definition utcoffset (d : datetime) : option Z :=
  match dt_tzinfo d with
  | Some tz => tz_utcoffset tz (wall d)
  | None => None
  end.

(** [d.replace(tzinfo=tz)]: the wall-clock fields stay, the zone changes. *)
Definition replace_tzinfo (tz : option tzinfo) (d : datetime) : datetime :=
  DateTime (wall d) tz.

(** The test of line 141:
    [end.tzinfo is not None and end.tzinfo.utcoffset(end) is not None]. *)
Definition is_aware (d : datetime) : bool :=
  match dt_tzinfo d with
  | Some _ => match utcoffset d with Some _ => true | None => false end
  | None => false
  end.

(** [now > d] for an aware [now] in UTC and an aware [d]: Python compares
    the two instants after subtracting each operand's offset. *)
Definition aware_gt (now_utc : Z) (d : datetime) : bool :=
  match utcoffset d with
  | Some off => wall d - off <? now_utc
  | None => false
  end.

(** [now > d] for a naive [now] and a [d] Python treats as naive: the
    wall-clock fields are compared. *)
Definition naive_gt (now_wall : Z) (d : datetime) : bool :=
  wall d <? now_wall.

End Datetime.

Import Datetime.

(** ** The [ics] library's events and calendars *)

Module Ics.

(** [ics.Event], the attributes the program reads.  [begin] and [end_]
    are the values of the [begin] and [end] properties: [None] for an
    event that carries no time at all.  [all_day] is
    [timespan.is_all_day()]. *)
Record Event := mkEvent {
  uid : string;
  begin : option datetime;
  end_ : option datetime;
  all_day : bool;
  description : string
}.

Definition is_all_day (e : Event) : bool := all_day e.

(** [Event.replace_timezone(tzinfo)]: the begin and the end that are
    there are re-labelled with the zone.  The library raises on all-day
    events; the program calls it only behind
    [not remote_event.timespan.is_all_day()]. *)
Definition replace_timezone (tz : tzinfo) (e : Event) : Event :=
  {| uid := uid e;
     begin := option_map (replace_tzinfo (Some tz)) (begin e);
     end_ := option_map (replace_tzinfo (Some tz)) (end_ e);
     all_day := all_day e;
     description := description e |}.

(** [ics.Calendar]: its events and its creator string.  A serialized
    calendar is kept in this parsed form: [serialize] and
    [ics.Calendar(data)] are taken as inverse to each other. *)
Record Calendar := mkCalendar {
  events : list Event;
  creator : string
}.

End Ics.

Import Ics.

(** ** The synchroniser object *)

(** The attributes of [ICSToCalDAV] set by [__init__] and read by
    [synchronise]: the parsed remote calendar, the two flags and the
    resolved time zone.  [calendar_url] is [self.local_calendar.url]. *)
Record ICSToCalDAV := mkICSToCalDAV {
  remote_calendar : Calendar;
  calendar_url : string;
  sync_all : bool;
  keep_local : bool;
  timezone : option tzinfo
}.

(** The exception classes the program tells apart. *)
Inductive Exception :=
| ValidateError      (* vobject.base.ValidateError *)
| ValueError
| AttributeError     (* an attribute read on [None] *)
| ReportError        (* caldav.lib.error.ReportError *)
| RuntimeError       (* StopIteration escaping a generator *)
| EnvironmentUnset (var : string)   (* raised by getenv_or_raise *)
| OtherError (name : string).       (* any other class: network, HTTP, ... *)

(** The clock readings and the behaviour of the libraries and of the
    servers during one call of [synchronise]. *)
Record Environment := mkEnvironment {
  (** [datetime.datetime.now()], naive local wall clock (line 128) *)
  now_naive : Z;
  (** [datetime.datetime.now(datetime.timezone.utc)] (line 129) *)
  now_aware : Z;
  (** [arrow.utcnow()] read by [_get_local_events_ids] (line 91) *)
  utcnow : Z;
  (** what serializing an event in [self._wrap] does: [None] returns the
      document, [Some e] raises [e] *)
  serialize_result : Event -> option Exception;
  (** what [local_calendar.save_event] does with a document: [None]
      stores it, [Some e] raises [e] *)
  save_event_result : Calendar -> option Exception;
  (** the name the caldav library derives from a UID for the resource it
      stores: the UID percent-quoted *)
  quote_uid : string -> string;
  (** outcome of [local_calendar.events()] / [local_calendar.search(...)] *)
  listing_result : option Exception;
  (** the server's time-range test for [search(start=t)] on a resource *)
  time_range : Calendar -> Z -> bool;
  (** outcome of [local_client.delete(url)] *)
  delete_result : string -> option Exception
}.

(** ** The CalDAV server and the effects of a run *)

(** What a run does to the outside world, in the order it happens. *)
Inductive Effect :=
| SaveEvent (data : Calendar)   (* [local_calendar.save_event(data)] *)
| ListEvents                    (* [local_calendar.events()] *)
| Search (start : Z)            (* [local_calendar.search(start=...)] *)
| Delete (url : string)         (* [local_client.delete(url)] *)
| LogException (msg : string)
| LogCritical (msg : string)
| LogInfo (msg : string)
| Print (s : string).

Inductive Result (A : Type) :=
| Ok (a : A)
| Raise (e : Exception).
Arguments Ok {A} a.
Arguments Raise {A} e.

(** The outcome of a computation: its value or the exception that left it,
    the calendar resources on the server afterwards (by URL), and the
    effects it produced. *)
Record Outcome (A : Type) := mkOutcome {
  result : Result A;
  store : gmap string Calendar;
  effects : list Effect
}.
Arguments mkOutcome {A} result store effects.
Arguments result {A} o.
Arguments store {A} o.
Arguments effects {A} o.

Definition M (A : Type) : Type := gmap string Calendar -> Outcome A.

Definition ret {A} (a : A) : M A := fun s => mkOutcome (Ok a) s [].

Definition raise {A} (e : Exception) : M A := fun s => mkOutcome (Raise e) s [].

Definition bind {A B} (m : M A) (f : A -> M B) : M B := fun s =>
  let o := m s in
  match result o with
  | Ok a =>
      let o' := f a (store o) in
      mkOutcome (result o') (store o') (effects o ++ effects o')
  | Raise e => mkOutcome (Raise e) (store o) (effects o)
  end.

Definition emit (eff : Effect) : M unit := fun s => mkOutcome (Ok tt) s [eff].

(** [try: m  except <classes>: handler]: [handler e] is [None] for an
    exception no [except] clause matches. *)
Definition try_except {A} (m : M A) (handler : Exception -> option (M A)) : M A :=
  fun s =>
    let o := m s in
    match result o with
    | Ok a => o
    | Raise e =>
        match handler e with
        | Some h =>
            let o' := h (store o) in
            mkOutcome (result o') (store o') (effects o ++ effects o')
        | None => o
        end
    end.

Definition lift {A} (r : Result A) : M A := fun s => mkOutcome r s [].

Declare Scope sync_scope.
Delimit Scope sync_scope with sync.
Notation "x <- m ;; k" := (bind m (fun x => k))
  (at level 100, m at next level, right associativity) : sync_scope.
Notation "m ;;; k" := (bind m (fun _ => k))
  (at level 100, right associativity) : sync_scope.
Local Open Scope sync_scope.

(** ** The window test of the first loop (lines 131-146) *)

(** Lines 133-134: the zone is forced on events that are not all-day. *)
Definition apply_timezone (self : ICSToCalDAV) (remote_event : Event) : Event :=
  match timezone self with
  | Some tz =>
      if negb (is_all_day remote_event)
      then replace_timezone tz remote_event
      else remote_event
  | None => remote_event
  end.

(** Lines 137-146: [Ok true] when the loop executes [continue], [Ok false]
    when it goes on to the [try] block.  Reading [end.tzinfo] on an event
    without an end raises [AttributeError] (line 141). *)
Definition skip_past (self : ICSToCalDAV) (env : Environment)
    (remote_event : Event) : Result bool :=
  if negb (sync_all self) then
    match end_ remote_event with
    | None => Raise AttributeError
    | Some end' =>
        Ok (if is_aware end' then aware_gt (now_aware env) end'
            else naive_gt (now_naive env) end')
    end
  else Ok false.

(** The event reaches the [try] block. *)
Definition passes (self : ICSToCalDAV) (env : Environment)
    (remote_event : Event) : bool :=
  match skip_past self env remote_event with
  | Ok false => true
  | _ => false
  end.

(** The events that reach the [try] block when the loop runs over all the
    source events, in source order, after the zone override: the eligible
    events of a cycle. *)
Definition eligible (self : ICSToCalDAV) (env : Environment)
    (remote_events : list Event) : list Event :=
  List.filter (passes self env)
              (List.map (apply_timezone self) remote_events).

(** ** The methods of [ICSToCalDAV] *)

(** [ICSToCalDAV._wrap]: the event alone in a calendar of its own; this is
    the document the method returns when serializing does not raise. *)
Definition _wrap (vevent : Event) : Calendar :=
  {| events := [vevent];
     creator := "Chihiro Software Ltd//Calendar sync//EN" |}.

(** The call [self._wrap(remote_event)] of line 149. *)
Definition call_wrap (env : Environment) (vevent : Event) : M Calendar :=
  fun s =>
    match serialize_result env vevent with
    | Some e => mkOutcome (Raise e) s []
    | None => mkOutcome (Ok (_wrap vevent)) s []
    end.

(** The UID of the first event of a resource:
    [next(iter(ics.Calendar(e.data).events)).uid]. *)
Definition first_uid (data : Calendar) : option string :=
  match events data with
  | e :: _ => Some (uid e)
  | [] => None
  end.

(** The URL the program deletes for an identity (line 165):
    [f"{self.local_calendar.url}{local_event_id}.ics"]. *)
Definition resource_url (self : ICSToCalDAV) (id : string) : string :=
  calendar_url self +:+ id +:+ ".ics".

(** The URL under which the caldav library stores the event of a UID: the
    calendar's URL, the quoted UID and [.ics]. *)
Definition saved_url (self : ICSToCalDAV) (env : Environment) (id : string)
  : string :=
  calendar_url self +:+ quote_uid env id +:+ ".ics".

(** [self.local_calendar.save_event(data)] *)
Definition save_event (self : ICSToCalDAV) (env : Environment)
    (data : Calendar) : M unit := fun s =>
  match save_event_result env data with
  | Some e => mkOutcome (Raise e) s [SaveEvent data]
  | None =>
      mkOutcome (Ok tt)
        (<[saved_url self env (default "" (first_uid data)) := data]> s)
        [SaveEvent data]
  end.

Definition invalid_event_msg : string :=
  "Invalid event was downloaded from the remote. It will be skipped.".

(** The [except] clauses of lines 150-153. *)
Definition save_handler (e : Exception) : option (M unit) :=
  match e with
  | ValidateError => Some (emit (LogException invalid_event_msg))
  | ValueError => Some (emit (LogException invalid_event_msg))
  | _ => None
  end.

(** The first loop of [synchronise] (lines 131-156). *)
Fixpoint save_remote_events (self : ICSToCalDAV) (env : Environment)
    (remote_events : list Event) : M unit :=
  match remote_events with
  | [] => ret tt
  | remote_event :: rest =>
      let remote_event := apply_timezone self remote_event in
      skip <- lift (skip_past self env remote_event) ;;
      if skip : bool
      then save_remote_events self env rest
      else
        try_except
          (data <- call_wrap env remote_event ;; save_event self env data)
          save_handler ;;;
        emit (Print "+") ;;;
        save_remote_events self env rest
  end.

(** The resources the server holds. *)
Definition resources (s : gmap string Calendar) : list Calendar :=
  (map_to_list s).*2.

(** [self.local_calendar.events()] *)
Definition local_calendar_events (env : Environment) : M (list Calendar) :=
  fun s =>
    match listing_result env with
    | Some e => mkOutcome (Raise e) s [ListEvents]
    | None => mkOutcome (Ok (resources s)) s [ListEvents]
    end.

(** [self.local_calendar.search(start=t)] *)
Definition local_calendar_search (env : Environment) (t : Z)
  : M (list Calendar) :=
  fun s =>
    match listing_result env with
    | Some e => mkOutcome (Raise e) s [Search t]
    | None =>
        mkOutcome (Ok (List.filter (fun c => time_range env c t) (resources s)))
                  s [Search t]
    end.

Definition search_failed_msg : string :=
  "Server failed when filtering events. Try SYNC_ALL=1 to do a full sync.".

(** The [except] clause of lines 92-94: log and re-raise. *)
Definition search_handler (e : Exception) : option (M (list Calendar)) :=
  match e with
  | ReportError => Some (emit (LogCritical search_failed_msg) ;;; raise ReportError)
  | _ => None
  end.

(** [ICSToCalDAV._get_local_events_ids] (lines 87-98). *)
Definition _get_local_events_ids (self : ICSToCalDAV) (env : Environment)
  : M (gset string) :=
  local_events <-
    (if sync_all self then local_calendar_events env
     else try_except (local_calendar_search env (utcnow env)) search_handler) ;;
  match mapM first_uid local_events with
  | Some ids => ret (list_to_set ids)
  | None => raise RuntimeError
  end.

(** [self.local_client.delete(url)] *)
Definition client_delete (env : Environment) (url : string) : M unit :=
  fun s =>
    match delete_result env url with
    | Some e => mkOutcome (Raise e) s [Delete url]
    | None => mkOutcome (Ok tt) (delete url s) [Delete url]
    end.

(** The second loop of [synchronise] (lines 163-168), over the identities
    in the order the set yields them. *)
Fixpoint delete_events (self : ICSToCalDAV) (env : Environment)
    (ids : list string) : M unit :=
  match ids with
  | [] => ret tt
  | local_event_id :: rest =>
      client_delete env (resource_url self local_event_id) ;;;
      emit (Print "-") ;;;
      delete_events self env rest
  end.

(** Line 161: [set(e.uid for e in self.remote_calendar.events)], read after
    the first loop has rewritten the events in place. *)
Definition remote_events_ids (self : ICSToCalDAV) : gset string :=
  list_to_set
    (List.map uid
       (List.map (apply_timezone self) (events (remote_calendar self)))).

(** Line 162. *)
Definition events_to_delete (self : ICSToCalDAV) (local_events_ids : gset string)
  : gset string :=
  local_events_ids ∖ remote_events_ids self.

Definition newline : string := String (Ascii.ascii_of_nat 10) "".

(** [ICSToCalDAV.synchronise] (lines 118-169).  A Python set is iterated in
    an order the language leaves open; [elements] fixes one. *)
Definition synchronise (self : ICSToCalDAV) (env : Environment) : M unit :=
  save_remote_events self env (events (remote_calendar self)) ;;;
  emit (Print newline) ;;;
  (if negb (keep_local self) then
     local_events_ids <- _get_local_events_ids self env ;;
     delete_events self env
       (elements (events_to_delete self local_events_ids))
   else ret tt) ;;;
  emit (Print newline).

(** ** The constructor and [main] *)

(** The keyword arguments [main] passes to [ICSToCalDAV]. *)
Record Settings := mkSettings {
  arg_remote_url : string;
  arg_local_url : string;
  arg_local_calendar_name : string;
  arg_local_username : string;
  arg_local_password : string;
  arg_remote_username : string;
  arg_remote_password : string;
  arg_sync_all : bool;
  arg_keep_local : bool;
  arg_timezone : option string
}.

(** What the two servers answer while one object is constructed. *)
Record CycleInput := mkCycleInput {
  (** [self.local_client.principal().calendar(name)]: the calendar's URL *)
  local_calendar_result : Result string;
  (** [ics.Calendar(requests.get(remote_url, ...).text)]: fetch and parse *)
  remote_calendar_result : Result Calendar;
  (** clocks and server behaviour during [synchronise] *)
  cycle_env : Environment
}.

Inductive LoopExit :=
| Finished     (* [break]: one run was asked for *)
| Pending.     (* the loop goes on beyond the cycles described *)

Section Main.

(** [dateutil.tz.gettz] and the validity test [arrow.utcnow().dehumanize]
    performs on [SYNC_EVERY]. *)
Variable gettz : string -> option tzinfo.
Variable dehumanize_ok : string -> bool.

(** [ICSToCalDAV.__init__] (lines 55-76): it only reads from the servers. *)
Definition __init__ (settings : Settings) (input : CycleInput)
  : Result ICSToCalDAV :=
  match local_calendar_result input with
  | Raise e => Raise e
  | Ok url =>
      match remote_calendar_result input with
      | Raise e => Raise e
      | Ok cal =>
          Ok {| remote_calendar := cal;
                calendar_url := url;
                sync_all := arg_sync_all settings;
                keep_local := arg_keep_local settings;
                timezone := match arg_timezone settings with
                            | Some name => gettz name
                            | None => None
                            end |}
      end
  end.

(** [getenv_or_raise] (lines 172-175). *)
Definition getenv_or_raise (environ : string -> option string) (var : string)
  : Result string :=
  match environ var with
  | None => Raise (EnvironmentUnset var)
  | Some value => Ok value
  end.

(** [bool(os.getenv(var, False))]: true for every non-empty string. *)
Definition getenv_bool (environ : string -> option string) (var : string)
  : bool :=
  match environ var with
  | Some value => negb (String.eqb value "")
  | None => false
  end.

(** [os.getenv(var, "")] *)
Definition getenv_default (environ : string -> option string) (var : string)
  : string :=
  default "" (environ var).

Definition result_bind {A B} (r : Result A) (f : A -> Result B) : Result B :=
  match r with
  | Ok a => f a
  | Raise e => Raise e
  end.

(** The [settings] dictionary of lines 184-195. *)
Definition read_settings (environ : string -> option string) : Result Settings :=
  result_bind (getenv_or_raise environ "REMOTE_URL") (fun remote_url =>
  result_bind (getenv_or_raise environ "LOCAL_URL") (fun local_url =>
  result_bind (getenv_or_raise environ "LOCAL_CALENDAR_NAME") (fun name =>
  result_bind (getenv_or_raise environ "LOCAL_USERNAME") (fun user =>
  result_bind (getenv_or_raise environ "LOCAL_PASSWORD") (fun password =>
  Ok {| arg_remote_url := remote_url;
        arg_local_url := local_url;
        arg_local_calendar_name := name;
        arg_local_username := user;
        arg_local_password := password;
        arg_remote_username := getenv_default environ "REMOTE_USERNAME";
        arg_remote_password := getenv_default environ "REMOTE_PASSWORD";
        arg_sync_all := getenv_bool environ "SYNC_ALL";
        arg_keep_local := getenv_bool environ "KEEP_LOCAL";
        arg_timezone := match environ "TIMEZONE" with
                        | Some "" => None
                        | tz => tz
                        end |}))))).

(** Lines 197-205: [SYNC_EVERY], prefixed and validated. *)
Definition read_sync_every (environ : string -> option string)
  : Result (option string) :=
  match environ "SYNC_EVERY" with
  | None => Ok None
  | Some value =>
      let sync_every := "in " +:+ value in
      if dehumanize_ok sync_every then Ok (Some sync_every)
      else Raise ValueError
  end.

(** The [while True] loop of lines 207-222, one [CycleInput] per
    iteration.  Nothing catches an exception inside the loop.  Sleeping
    until [next_run] changes neither the store nor the requests sent and is
    left out. *)
Fixpoint main_loop (settings : Settings) (sync_every : option string)
    (cycles : list CycleInput) : M LoopExit :=
  match cycles with
  | [] => ret Pending
  | input :: later =>
      emit (LogInfo "starting sync") ;;;
      self <- lift (__init__ settings input) ;;
      synchronise self (cycle_env input) ;;;
      emit (LogInfo "sync done successfully") ;;;
      match sync_every with
      | None => ret Finished
      | Some _ => main_loop settings sync_every later
      end
  end.

(** [main] (lines 178-222). *)
Definition main (environ : string -> option string)
    (cycles : list CycleInput) : M LoopExit :=
  settings <- lift (read_settings environ) ;;
  sync_every <- lift (read_sync_every environ) ;;
  main_loop settings sync_every cycles.

End Main.

(** The variables [main] reads with [getenv_or_raise], in the order of
    lines 185-189. *)
Definition required_variables : list string :=
  ["REMOTE_URL"; "LOCAL_URL"; "LOCAL_CALENDAR_NAME"; "LOCAL_USERNAME";
   "LOCAL_PASSWORD"].

(** ** Reading a run *)

(** The documents submitted to [save_event], in order. *)
Fixpoint saved (t : list Effect) : list Calendar :=
  match t with
  | [] => []
  | SaveEvent data :: t' => data :: saved t'
  | _ :: t' => saved t'
  end.

(** The URLs [delete] was called on, in order. *)
Fixpoint deleted (t : list Effect) : list string :=
  match t with
  | [] => []
  | Delete url :: t' => url :: deleted t'
  | _ :: t' => deleted t'
  end.

(** The listing requests of a run. *)
Fixpoint listings (t : list Effect) : list Effect :=
  match t with
  | [] => []
  | ListEvents :: t' => ListEvents :: listings t'
  | Search start :: t' => Search start :: listings t'
  | _ :: t' => listings t'
  end.

(** An exception the [try] block of the first loop lets through. *)
Definition uncaught (e : Exception) : bool :=
  match save_handler e with
  | Some _ => false
  | None => true
  end.

(** What the [try] block of the first loop raises for an event: the
    exception of [_wrap], or else that of [save_event]. *)
Definition create_result (env : Environment) (e : Event) : option Exception :=
  match serialize_result env e with
  | Some ex => Some ex
  | None => save_event_result env (_wrap e)
  end.

(** The [try] block of an event ends the first loop. *)
Definition create_aborts (env : Environment) (e : Event) : bool :=
  match create_result env e with
  | Some ex => uncaught ex
  | None => false
  end.

(** [_wrap] returns for the event, so that [save_event] is called. *)
Definition wrapped (env : Environment) (e : Event) : bool :=
  match serialize_result env e with
  | Some _ => false
  | None => true
  end.

(** What the first loop does for an eligible event whose [try] block does
    not end the loop. *)
Definition create_effects (env : Environment) (e : Event) : list Effect :=
  match serialize_result env e with
  | Some _ => [LogException invalid_event_msg; Print "+"]
  | None =>
      SaveEvent (_wrap e)
      :: match save_event_result env (_wrap e) with
         | Some _ => [LogException invalid_event_msg; Print "+"]
         | None => [Print "+"]
         end
  end.

(** The documents the first loop passes to [save_event], read off the
    source events and the environment alone. *)
Fixpoint submitted (self : ICSToCalDAV) (env : Environment)
    (remote_events : list Event) : list Calendar :=
  match remote_events with
  | [] => []
  | e0 :: rest =>
      let e := apply_timezone self e0 in
      match skip_past self env e with
      | Raise _ => []
      | Ok true => submitted self env rest
      | Ok false =>
          match serialize_result env e with
          | Some ex => if uncaught ex then [] else submitted self env rest
          | None =>
              _wrap e
              :: match save_event_result env (_wrap e) with
                 | Some ex =>
                     if uncaught ex then [] else submitted self env rest
                 | None => submitted self env rest
                 end
          end
      end
  end.

(** The window test raises for no source event: full sync is on, or every
    source event has an end. *)
Definition ends_known (self : ICSToCalDAV) (remote_events : list Event) : Prop :=
  sync_all self = true \/ forall e, In e remote_events -> is_Some (end_ e).

(** The caldav library stores the events under their UIDs as they are:
    quoting changes none of them. *)
Definition stored_unquoted (env : Environment) (remote_events : list Event)
  : Prop :=
  forall e, In e remote_events -> quote_uid env (uid e) = uid e.

(** The identities up to and including the first whose deletion raises. *)
Fixpoint until_raise (self : ICSToCalDAV) (env : Environment)
    (ids : list string) : list string :=
  match ids with
  | [] => []
  | id :: ids' =>
      match delete_result env (resource_url self id) with
      | Some _ => [id]
      | None => id :: until_raise self env ids'
      end
  end.

(** The resources [_get_local_events_ids] reads the identities from. *)
Definition selected (self : ICSToCalDAV) (env : Environment)
    (s : gmap string Calendar) : list Calendar :=
  if sync_all self then resources s
  else List.filter (fun c => time_range env c (utcnow env)) (resources s).

(** The request [_get_local_events_ids] sends. *)
Definition listing_request (self : ICSToCalDAV) (env : Environment) : Effect :=
  if sync_all self then ListEvents else Search (utcnow env).

(** Every resource is stored under the URL of the UID of its first event,
    the URL line 165 deletes for that UID. *)
Definition named_by_uid (self : ICSToCalDAV) (s : gmap string Calendar) : Prop :=
  forall url c, s !! url = Some c ->
    exists id, first_uid c = Some id /\ url = resource_url self id.

(** ** Example data *)

Module Examples.

Definition naive (w : Z) : datetime := DateTime w None.
Definition utc (w : Z) : datetime := DateTime w (Some timezone_utc).

Definition ev (id : string) (finish : datetime) : Event :=
  {| uid := id;
     begin := Some (DateTime (wall finish - 60) (dt_tzinfo finish));
     end_ := Some finish; all_day := false; description := "" |}.

(** An event that carries no time. *)
Definition timeless (id : string) : Event :=
  {| uid := id; begin := None; end_ := None; all_day := false;
     description := "" |}.

(** A quiet server: nothing fails, and [search(start=t)] returns the
    resources whose first event ends after [t], naive ends read as UTC. *)
Definition ends_after (c : Calendar) (t : Z) : bool :=
  match events c with
  | e :: _ =>
      match end_ e with
      | Some d => t <? wall d - default 0 (utcoffset d)
      | None => false
      end
  | [] => false
  end.

Definition quiet (now : Z) : Environment :=
  {| now_naive := now; now_aware := now; utcnow := now;
     serialize_result := fun _ => None;
     quote_uid := fun id => id;
     save_event_result := fun _ => None;
     listing_result := None;
     time_range := ends_after;
     delete_result := fun _ => None |}.

Definition syncer (evs : list Event) (all keep : bool) : ICSToCalDAV :=
  {| remote_calendar := {| events := evs; creator := "remote" |};
     calendar_url := "https://dav/cal/";
     sync_all := all; keep_local := keep; timezone := None |}.

Definition put (id : string) (finish : datetime) (s : gmap string Calendar)
  : gmap string Calendar :=
  <[resource_url (syncer [] false false) id := _wrap (ev id finish)]> s.

(** A server on which the create of the event [id] raises [ex]. *)
Definition failing_save (id : string) (ex : Exception) (now : Z) : Environment :=
  {| now_naive := now; now_aware := now; utcnow := now;
     serialize_result := fun _ => None;
     quote_uid := fun id => id;
     save_event_result := fun data =>
       match first_uid data with
       | Some id' => if String.eqb id' id then Some ex else None
       | None => None
       end;
     listing_result := None;
     time_range := ends_after;
     delete_result := fun _ => None |}.

(** A server on which the deletion of [url] raises [ex]. *)
Definition failing_delete (url : string) (ex : Exception) (now : Z)
  : Environment :=
  {| now_naive := now; now_aware := now; utcnow := now;
     serialize_result := fun _ => None;
     quote_uid := fun id => id;
     save_event_result := fun _ => None;
     listing_result := None;
     time_range := ends_after;
     delete_result := fun u => if String.eqb u url then Some ex else None |}.

Definition connection_error : Exception := OtherError "ConnectionError".

Definition x_past : Event := ev "x" (utc 900).
Definition y_future : Event := ev "y" (utc 1100).
Definition a_future : Event := ev "a" (utc 1200).
Definition b_future : Event := ev "b" (utc 1300).

Definition url_of (id : string) : string :=
  resource_url (syncer [] false false) id.

Definition no_zone (name : string) : option tzinfo := None.

Definition settings0 (keep : bool) : Settings :=
  {| arg_remote_url := "https://feed/cal.ics";
     arg_local_url := "https://dav/";
     arg_local_calendar_name := "cal";
     arg_local_username := "user";
     arg_local_password := "secret";
     arg_remote_username := "";
     arg_remote_password := "";
     arg_sync_all := false;
     arg_keep_local := keep;
     arg_timezone := None |}.

Definition cycle_ok (evs : list Event) (now : Z) : CycleInput :=
  {| local_calendar_result := Ok "https://dav/cal/";
     remote_calendar_result := Ok {| events := evs; creator := "remote" |};
     cycle_env := quiet now |}.

Definition cycle_fetch_fails (now : Z) : CycleInput :=
  {| local_calendar_result := Ok "https://dav/cal/";
     remote_calendar_result := Raise connection_error;
     cycle_env := quiet now |}.

Definition source_xy : ICSToCalDAV := syncer [x_past; y_future] false false.
Definition source_ab (keep : bool) : ICSToCalDAV :=
  syncer [a_future; b_future] false keep.

(** Destinations: [x] still to come and [z]; [x] over and [z]; [a] and
    [b]; [z] alone; [y] alone. *)
Definition store_x_z : gmap string Calendar :=
  put "x" (utc 1500) (put "z" (utc 2000) ∅).
Definition store_oldx_z : gmap string Calendar :=
  put "x" (utc 900) (put "z" (utc 2000) ∅).
Definition store_a_b : gmap string Calendar :=
  put "a" (utc 1200) (put "b" (utc 1300) ∅).
Definition store_z : gmap string Calendar := put "z" (utc 2000) ∅.
Definition store_y : gmap string Calendar := put "y" (utc 1100) ∅.

Definition naive_now : Event := ev "n" (naive 1000).

(** A destination holding [p], over, next to [z]. *)
Definition store_p_z : gmap string Calendar := put "p" (utc 800) store_z.

(** A process environment with the five required variables and the
    optional ones given. *)
Definition environ0 (extra : list (string * string)) (var : string)
  : option string :=
  match List.find (fun kv => String.eqb (fst kv) var) extra with
  | Some kv => Some (snd kv)
  | None =>
      if List.existsb (String.eqb var) required_variables
      then Some "value" else None
  end.

(** The same without [LOCAL_URL] and [LOCAL_PASSWORD]. *)
Definition environ_incomplete (var : string) : option string :=
  if String.eqb var "LOCAL_URL" then None
  else if String.eqb var "LOCAL_PASSWORD" then None
  else environ0 [] var.

Definition any_interval (text : string) : bool := true.
Definition no_interval (text : string) : bool := false.

Definition new_york : tzinfo := TZInfo (fun _ => Some (-18000000000)).

Definition cycle_connect_fails (now : Z) : CycleInput :=
  {| local_calendar_result := Raise connection_error;
     remote_calendar_result := Raise ValueError;
     cycle_env := quiet now |}.

(** A server whose listing request raises [ex]. *)
Definition failing_listing (ex : Exception) (now : Z) : Environment :=
  {| now_naive := now; now_aware := now; utcnow := now;
     serialize_result := fun _ => None;
     quote_uid := fun id => id;
     save_event_result := fun _ => None;
     listing_result := Some ex;
     time_range := ends_after;
     delete_result := fun _ => None |}.

(** A synchroniser forcing the zone [new_york] on its events. *)
Definition zoned (evs : list Event) : ICSToCalDAV :=
  {| remote_calendar := {| events := evs; creator := "remote" |};
     calendar_url := "https://dav/cal/";
     sync_all := false; keep_local := false; timezone := Some new_york |}.

Definition settings_tz (name : string) : Settings :=
  {| arg_remote_url := "https://feed/cal.ics";
     arg_local_url := "https://dav/";
     arg_local_calendar_name := "cal";
     arg_local_username := "user";
     arg_local_password := "secret";
     arg_remote_username := "";
     arg_remote_password := "";
     arg_sync_all := false;
     arg_keep_local := false;
     arg_timezone := Some name |}.

(** A library that raises [ex] when serializing the event [id]. *)
Definition failing_wrap (id : string) (ex : Exception) (now : Z) : Environment :=
  {| now_naive := now; now_aware := now; utcnow := now;
     serialize_result := fun e => if String.eqb (uid e) id then Some ex else None;
     quote_uid := fun id => id;
     save_event_result := fun _ => None;
     listing_result := None;
     time_range := ends_after;
     delete_result := fun _ => None |}.

Definition tokyo : tzinfo := TZInfo (fun _ => Some 32400000000).

(** A synchroniser forcing the zone [tokyo] on its events. *)
Definition zoned_east (evs : list Event) : ICSToCalDAV :=
  {| remote_calendar := {| events := evs; creator := "remote" |};
     calendar_url := "https://dav/cal/";
     sync_all := false; keep_local := false; timezone := Some tokyo |}.

Definition w_past : Event := ev "w" (utc 900).


End Examples.

(** * Properties of the window test and of the loops *)

(** ** The window test *)

Section Window.

Variables (self : ICSToCalDAV) (env : Environment).

Lemma apply_timezone_uid e : uid (apply_timezone self e) = uid e.
Proof.
  unfold apply_timezone. destruct (timezone self); [|done].
  by destruct (negb (is_all_day e)).
Qed.

Lemma apply_timezone_idem e :
  apply_timezone self (apply_timezone self e) = apply_timezone self e.
Proof.
  unfold apply_timezone. destruct (timezone self) as [tz|]; [|done].
  unfold is_all_day. destruct (all_day e) eqn:Hday; simpl.
  - by rewrite Hday.
  - rewrite Hday. simpl. unfold replace_timezone. simpl.
    by destruct (begin e), (end_ e).
Qed.

Lemma apply_timezone_same e :
  timezone self = None \/ is_all_day e = true -> apply_timezone self e = e.
Proof.
  unfold apply_timezone. intros [->| ->]; [done|].
  by destruct (timezone self).
Qed.

Lemma is_aware_utcoffset d :
  is_aware d = true <-> exists off, utcoffset d = Some off.
Proof.
  unfold is_aware, utcoffset. destruct (dt_tzinfo d) as [tz|].
  - destruct (tz_utcoffset tz (wall d)) as [off|].
    + split; [eauto|done].
    + split; [done|]. by intros [off Hoff].
  - split; [done|]. by intros [off Hoff].
Qed.

Lemma eligible_cons e evs :
  eligible self env (e :: evs) =
  if passes self env (apply_timezone self e)
  then apply_timezone self e :: eligible self env evs
  else eligible self env evs.
Proof. done. Qed.

Lemma eligible_In e' evs :
  In e' (eligible self env evs) <->
  In e' (List.map (apply_timezone self) evs) /\ passes self env e' = true.
Proof. unfold eligible. apply filter_In. Qed.

Lemma eligible_uid e' evs :
  In e' (eligible self env evs) -> In (uid e') (List.map uid evs).
Proof.
  rewrite eligible_In, in_map_iff. intros [(e & <- & Hin) _].
  rewrite apply_timezone_uid. by apply in_map.
Qed.

Lemma passes_skip_past e :
  passes self env e = true <-> skip_past self env e = Ok false.
Proof.
  unfold passes. destruct (skip_past self env e) as [[]|]; split; done.
Qed.

Lemma passes_sync_all e : sync_all self = true -> passes self env e = true.
Proof. unfold passes, skip_past. by intros ->. Qed.

Lemma passes_aware e d off :
  sync_all self = false -> end_ e = Some d -> utcoffset d = Some off ->
  passes self env e = negb (wall d - off <? now_aware env).
Proof.
  intros Hall Hend Hoff. unfold passes, skip_past. rewrite Hall, Hend. simpl.
  assert (is_aware d = true) as -> by (apply is_aware_utcoffset; eauto).
  unfold aware_gt. rewrite Hoff. by destruct (wall d - off <? now_aware env).
Qed.

Lemma passes_naive e d :
  sync_all self = false -> end_ e = Some d -> is_aware d = false ->
  passes self env e = negb (wall d <? now_naive env).
Proof.
  intros Hall Hend Hnaive. unfold passes, skip_past.
  rewrite Hall, Hend. simpl. rewrite Hnaive. unfold naive_gt.
  by destruct (wall d <? now_naive env).
Qed.

Lemma skip_past_no_end e :
  sync_all self = false -> end_ e = None ->
  skip_past self env e = Raise AttributeError.
Proof. intros Hall Hend. unfold skip_past. by rewrite Hall, Hend. Qed.

Lemma apply_timezone_end_is_Some e :
  is_Some (end_ (apply_timezone self e)) <-> is_Some (end_ e).
Proof.
  unfold apply_timezone. destruct (timezone self) as [tz|]; [|done].
  destruct (negb (is_all_day e)); [|done]. simpl.
  destruct (end_ e) as [d0|]; simpl; split; intros [d Hd]; by eauto.
Qed.

(** The window test returns for every source event when their ends are
    known. *)
Lemma skip_past_returns evs e :
  ends_known self evs -> In e evs ->
  exists skip, skip_past self env (apply_timezone self e) = Ok skip.
Proof.
  intros [Hall|Hends] Hin; unfold skip_past.
  - rewrite Hall. by eexists.
  - destruct (negb (sync_all self)); [|by eexists].
    destruct (proj2 (apply_timezone_end_is_Some e) (Hends e Hin)) as [d ->].
    by eexists.
Qed.

End Window.

(** C2, as the code has it.  With [sync_all] false, no event whose end, as
    it stands when the window test reads it (after the zone override, which
    re-labels the end of every event that is not all-day when a zone is
    configured), is aware and strictly before the aware current instant is
    among the eligible events; so a source event with such an end is
    excluded whenever no zone is configured or the event is all-day.  With
    [sync_all] true every source event is eligible, and the clock readings
    play no part in the outcome. *)
Theorem window_correctness (self : ICSToCalDAV) (env : Environment)
    (remote_events : list Event) :
  (sync_all self = false ->
   forall e d off,
     end_ e = Some d ->
     utcoffset d = Some off ->
     wall d - off < now_aware env ->
     ~ In e (eligible self env remote_events))
  /\
  (sync_all self = false ->
   forall e0 d off,
     In e0 remote_events ->
     timezone self = None \/ is_all_day e0 = true ->
     end_ e0 = Some d ->
     utcoffset d = Some off ->
     wall d - off < now_aware env ->
     ~ In e0 (eligible self env remote_events)
     /\ ~ In (apply_timezone self e0) (eligible self env remote_events))
  /\
  (sync_all self = true ->
   eligible self env remote_events
     = List.map (apply_timezone self) remote_events
   /\ forall env', eligible self env' remote_events
                   = eligible self env remote_events).
Proof.
  assert (sync_all self = false ->
          forall e d off,
            end_ e = Some d -> utcoffset d = Some off ->
            wall d - off < now_aware env ->
            ~ In e (eligible self env remote_events)) as Hout.
  { intros Hall e d off Hend Hoff Hlt [_ Hkeep]%eligible_In.
    rewrite (passes_aware self env e d off Hall Hend Hoff) in Hkeep.
    apply negb_true_iff, Z.ltb_ge in Hkeep. lia. }
  split; [exact Hout|]. split.
  - intros Hall e0 d off Hin Hsame Hend Hoff Hlt.
    rewrite (apply_timezone_same self e0 Hsame).
    split; by apply (Hout Hall e0 d off).
  - intros Hall. clear Hout.
    assert (forall env0, eligible self env0 remote_events
                         = List.map (apply_timezone self) remote_events) as Hmap.
    { intros env0. induction remote_events as [|e evs IH]; [done|].
      rewrite eligible_cons, passes_sync_all by done.
      simpl. by rewrite IH. }
    split; [apply Hmap|]. intros env'. by rewrite !Hmap.
Qed.

(** C3, as the code has it.  With [sync_all] false, a source event whose
    end, as it stands when the window test reads it, is naive is eligible
    exactly when the naive current time is not strictly after that end: an
    end equal to the naive current time keeps the event.  The end of a
    source event is read as it is when no zone is configured or the event
    is all-day. *)
Theorem naive_end_window (self : ICSToCalDAV) (env : Environment)
    (remote_events : list Event) (e : Event) (d : datetime) :
  sync_all self = false ->
  In e remote_events ->
  (end_ (apply_timezone self e) = Some d ->
   is_aware d = false ->
   (In (apply_timezone self e) (eligible self env remote_events)
    <-> now_naive env <= wall d))
  /\
  (timezone self = None \/ is_all_day e = true ->
   end_ e = Some d ->
   is_aware d = false ->
   (In e (eligible self env remote_events) <-> now_naive env <= wall d)).
Proof.
  intros Hall Hin.
  assert (end_ (apply_timezone self e) = Some d ->
          is_aware d = false ->
          (In (apply_timezone self e) (eligible self env remote_events)
           <-> now_naive env <= wall d)) as Hread.
  { intros Hend Hnaive. rewrite eligible_In.
    rewrite (passes_naive self env _ d Hall Hend Hnaive).
    rewrite negb_true_iff, Z.ltb_ge.
    split; [tauto|]. intros Hle. split; [|done]. by apply in_map. }
  split; [exact Hread|].
  intros Hsame Hend Hnaive.
  rewrite <- (apply_timezone_same self e Hsame) at 1.
  apply Hread; [|done]. by rewrite (apply_timezone_same self e Hsame).
Qed.

(** C9.  Filtering the eligible events again, with the same clock
    readings, flag and zone override, returns them unchanged. *)
Theorem eligible_idempotent (self : ICSToCalDAV) (env : Environment)
    (remote_events : list Event) :
  eligible self env (eligible self env remote_events)
  = eligible self env remote_events.
Proof.
  induction remote_events as [|e evs IH]; [done|].
  rewrite eligible_cons.
  destruct (passes self env (apply_timezone self e)) eqn:Hpass; [|done].
  rewrite eligible_cons, apply_timezone_idem, Hpass. by rewrite IH.
Qed.
(** ** Reading effects *)

Lemma saved_app t1 t2 : saved (t1 ++ t2) = saved t1 ++ saved t2.
Proof.
  induction t1 as [|eff t1 IH]; [done|].
  destruct eff; simpl; by rewrite ?IH.
Qed.

Lemma deleted_app t1 t2 : deleted (t1 ++ t2) = deleted t1 ++ deleted t2.
Proof.
  induction t1 as [|eff t1 IH]; [done|].
  destruct eff; simpl; by rewrite ?IH.
Qed.

Lemma listings_app t1 t2 : listings (t1 ++ t2) = listings t1 ++ listings t2.
Proof.
  induction t1 as [|eff t1 IH]; [done|].
  destruct eff; simpl; by rewrite ?IH.
Qed.

Lemma outcome_eta {A} (o : Outcome A) :
  mkOutcome (result o) (store o) (effects o) = o.
Proof. by destruct o. Qed.

(** ** The first loop *)

Section FirstLoop.

Variables (self : ICSToCalDAV) (env : Environment).

(** One iteration of the loop, by the outcome of the window test, of
    [_wrap] and of [save_event]. *)
Lemma save_remote_events_cons e0 evs s :
  save_remote_events self env (e0 :: evs) s =
  let e := apply_timezone self e0 in
  match skip_past self env e with
  | Raise ex => mkOutcome (Raise ex) s []
  | Ok true => save_remote_events self env evs s
  | Ok false =>
      match serialize_result env e with
      | Some ex =>
          if uncaught ex then mkOutcome (Raise ex) s []
          else
            let o := save_remote_events self env evs s in
            mkOutcome (result o) (store o)
              (LogException invalid_event_msg :: Print "+" :: effects o)
      | None =>
          match save_event_result env (_wrap e) with
          | None =>
              let o := save_remote_events self env evs
                         (<[saved_url self env (uid e) := _wrap e]> s) in
              mkOutcome (result o) (store o)
                (SaveEvent (_wrap e) :: Print "+" :: effects o)
          | Some ex =>
              if uncaught ex
              then mkOutcome (Raise ex) s [SaveEvent (_wrap e)]
              else
                let o := save_remote_events self env evs s in
                mkOutcome (result o) (store o)
                  (SaveEvent (_wrap e) :: LogException invalid_event_msg
                   :: Print "+" :: effects o)
          end
      end
  end.
Proof.
  simpl. unfold bind at 1. unfold lift. simpl.
  destruct (skip_past self env (apply_timezone self e0)) as [[]|ex]; simpl;
    [apply outcome_eta| |done].
  unfold bind, try_except, call_wrap, save_event, emit. simpl.
  destruct (serialize_result env (apply_timezone self e0)) as [ex|]; simpl.
  { destruct ex; simpl; try done;
      by destruct (result (save_remote_events self env evs s)). }
  destruct (save_event_result env (_wrap (apply_timezone self e0))) as [ex|];
    simpl.
  - destruct ex; simpl; try done;
      by destruct (result (save_remote_events self env evs s)).
  - by destruct (result (save_remote_events self env evs _)).
Qed.

(** The documents passed to [save_event] do not depend on the store. *)
Lemma save_remote_events_saved evs s :
  saved (effects (save_remote_events self env evs s)) = submitted self env evs.
Proof.
  revert s. induction evs as [|e0 evs IH]; intros s; [done|].
  rewrite save_remote_events_cons. cbv zeta. simpl.
  destruct (skip_past self env (apply_timezone self e0)) as [[]|ex];
    [apply IH| |done].
  destruct (serialize_result env (apply_timezone self e0)) as [ex|].
  { destruct (uncaught ex); simpl; [done|]. apply IH. }
  destruct (save_event_result env (_wrap (apply_timezone self e0))) as [ex|].
  - destruct (uncaught ex); simpl; [done|]. by rewrite IH.
  - simpl. by rewrite IH.
Qed.

Lemma save_remote_events_quiet evs s :
  deleted (effects (save_remote_events self env evs s)) = []
  /\ listings (effects (save_remote_events self env evs s)) = [].
Proof.
  revert s. induction evs as [|e0 evs IH]; intros s; [done|].
  rewrite save_remote_events_cons. cbv zeta.
  destruct (skip_past self env (apply_timezone self e0)) as [[]|ex];
    [apply IH| |done].
  destruct (serialize_result env (apply_timezone self e0)) as [ex|].
  { destruct (uncaught ex); simpl; [done|]. apply IH. }
  destruct (save_event_result env (_wrap (apply_timezone self e0))) as [ex|].
  - destruct (uncaught ex); simpl; [done|]. apply IH.
  - simpl. apply IH.
Qed.

(** Every document passed to [save_event] wraps an eligible event. *)
Lemma submitted_eligible evs data :
  In data (submitted self env evs) ->
  exists e, In e (eligible self env evs) /\ data = _wrap e.
Proof.
  induction evs as [|e0 evs IH]; [done|].
  rewrite eligible_cons. simpl. unfold passes.
  assert (forall e1,
    (In data (submitted self env evs) ->
     exists e, In e (e1 :: eligible self env evs) /\ data = _wrap e))
    as Hweaken.
  { intros e1 (e & ? & ?)%IH. exists e. by split; [right|]. }
  destruct (skip_past self env (apply_timezone self e0)) as [[]|ex];
    [apply IH| |done].
  destruct (serialize_result env (apply_timezone self e0)) as [ex|].
  { destruct (uncaught ex); [done|apply Hweaken]. }
  intros [<-|Hin]; [eexists; by split; [left|]|].
  revert Hin.
  destruct (save_event_result env (_wrap (apply_timezone self e0))) as [ex|];
    [destruct (uncaught ex); [done|]|]; apply Hweaken.
Qed.

Lemma ends_known_cons e0 evs :
  ends_known self (e0 :: evs) -> ends_known self evs.
Proof.
  intros [Hall|Hends]; [by left|]. right. intros e Hin. apply Hends. by right.
Qed.

(** With the ends known and no [try] block that ends the loop, the loop
    returns and its effects are those of the eligible events, one after
    the other. *)
Lemma save_remote_events_complete evs s :
  ends_known self evs ->
  (forall e, In e (eligible self env evs) -> create_aborts env e = false) ->
  result (save_remote_events self env evs s) = Ok tt
  /\ effects (save_remote_events self env evs s)
     = flat_map (create_effects env) (eligible self env evs).
Proof.
  revert s. induction evs as [|e0 evs IH]; intros s Hends Hno; [done|].
  destruct (skip_past_returns self env _ e0 Hends (or_introl eq_refl))
    as [skip Hskip].
  pose proof (ends_known_cons _ _ Hends) as Hends'.
  rewrite save_remote_events_cons. rewrite eligible_cons in Hno |- *.
  unfold passes in Hno |- *. cbv zeta. rewrite Hskip in Hno |- *.
  destruct skip; [by apply IH|].
  pose proof (Hno _ (or_introl eq_refl)) as He.
  unfold create_aborts, create_result in He.
  assert (forall e, In e (eligible self env evs) ->
                    create_aborts env e = false) as Hrest
    by (intros e Hin; apply Hno; by right).
  simpl. unfold create_effects at 1.
  destruct (serialize_result env (apply_timezone self e0)) as [ex|].
  { rewrite He. simpl. by destruct (IH s Hends' Hrest) as [-> ->]. }
  destruct (save_event_result env (_wrap (apply_timezone self e0))) as [ex|].
  - rewrite He. simpl. by destruct (IH s Hends' Hrest) as [-> ->].
  - simpl.
    by destruct (IH (<[saved_url self env (uid (apply_timezone self e0))
                       := _wrap (apply_timezone self e0)]> s) Hends' Hrest)
      as [-> ->].
Qed.

(** In that case the documents passed to [save_event] are the eligible
    events [_wrap] returns for. *)
Lemma submitted_complete evs :
  ends_known self evs ->
  (forall e, In e (eligible self env evs) -> create_aborts env e = false) ->
  submitted self env evs
  = List.map _wrap (List.filter (wrapped env) (eligible self env evs)).
Proof.
  induction evs as [|e0 evs IH]; intros Hends Hno; [done|].
  destruct (skip_past_returns self env _ e0 Hends (or_introl eq_refl))
    as [skip Hskip].
  pose proof (ends_known_cons _ _ Hends) as Hends'.
  rewrite eligible_cons in Hno |- *. unfold passes in Hno |- *.
  simpl. rewrite Hskip in Hno |- *.
  destruct skip; [by apply IH|].
  pose proof (Hno _ (or_introl eq_refl)) as He.
  unfold create_aborts, create_result in He.
  assert (forall e, In e (eligible self env evs) ->
                    create_aborts env e = false) as Hrest
    by (intros e Hin; apply Hno; by right).
  simpl. unfold wrapped at 1.
  destruct (serialize_result env (apply_timezone self e0)) as [ex|].
  { rewrite He. by apply IH. }
  simpl. f_equal.
  destruct (save_event_result env (_wrap (apply_timezone self e0))) as [ex|];
    [rewrite He|]; by apply IH.
Qed.

(** An exception that leaves the loop is one no handler catches. *)
Lemma save_remote_events_raise evs s ex :
  result (save_remote_events self env evs s) = Raise ex -> uncaught ex = true.
Proof.
  revert s. induction evs as [|e0 evs IH]; intros s; [done|].
  rewrite save_remote_events_cons. cbv zeta. unfold skip_past.
  destruct (negb (sync_all self)).
  - destruct (end_ (apply_timezone self e0)) as [d|]; [|by intros [= <-]].
    destruct (if is_aware d then _ else _); [apply IH|].
    destruct (serialize_result env (apply_timezone self e0)) as [ex'|].
    { destruct (uncaught ex') eqn:Hunc; simpl; [by intros [= <-]|apply IH]. }
    destruct (save_event_result env (_wrap (apply_timezone self e0)))
      as [ex'|].
    + destruct (uncaught ex') eqn:Hunc; simpl; [by intros [= <-]|apply IH].
    + simpl. apply IH.
  - destruct (serialize_result env (apply_timezone self e0)) as [ex'|].
    { destruct (uncaught ex') eqn:Hunc; simpl; [by intros [= <-]|apply IH]. }
    destruct (save_event_result env (_wrap (apply_timezone self e0)))
      as [ex'|].
    + destruct (uncaught ex') eqn:Hunc; simpl; [by intros [= <-]|apply IH].
    + simpl. apply IH.
Qed.

(** The loop writes only resources of eligible events, each under the
    name the library gives its UID. *)
Lemma save_remote_events_store evs s url :
  store (save_remote_events self env evs s) !! url = s !! url
  \/ exists e, In e (eligible self env evs)
               /\ url = saved_url self env (uid e)
               /\ store (save_remote_events self env evs s) !! url
                  = Some (_wrap e).
Proof.
  revert s. induction evs as [|e0 evs IH]; intros s; [by left|].
  rewrite save_remote_events_cons, eligible_cons. cbv zeta. unfold passes.
  destruct (skip_past self env (apply_timezone self e0)) as [[]|ex];
    [apply IH| |by left].
  set (e' := apply_timezone self e0).
  assert (forall s0,
    (store (save_remote_events self env evs s0) !! url = s0 !! url
     \/ exists e, In e (eligible self env evs)
                  /\ url = saved_url self env (uid e)
                  /\ store (save_remote_events self env evs s0) !! url
                     = Some (_wrap e)) ->
    store (save_remote_events self env evs s0) !! url = s0 !! url
    \/ exists e, In e (e' :: eligible self env evs)
                 /\ url = saved_url self env (uid e)
                 /\ store (save_remote_events self env evs s0) !! url
                    = Some (_wrap e)) as Hweaken.
  { intros s0 [?|(e & ? & ? & ?)]; [by left|].
    right. exists e. by split; [right|]. }
  destruct (serialize_result env e') as [ex|].
  { destruct (uncaught ex); simpl; [by left|]. apply Hweaken, IH. }
  destruct (save_event_result env (_wrap e')) as [ex|].
  - destruct (uncaught ex); simpl; [by left|]. apply Hweaken, IH.
  - simpl. destruct (IH (<[saved_url self env (uid e') := _wrap e']> s))
      as [Hsame|(e & ? & ? & ?)].
    + destruct (decide (saved_url self env (uid e') = url)) as [<-|Hne].
      * right. exists e'. split; [by left|]. split; [done|].
        by rewrite Hsame, lookup_insert_eq.
      * left. by rewrite Hsame, lookup_insert_ne.
    + right. exists e. by split; [right|].
Qed.

(** The loop over a list run after the loop over another is the loop over
    the two lists joined. *)
Lemma save_remote_events_app evs1 evs2 s :
  save_remote_events self env (evs1 ++ evs2) s =
  let o1 := save_remote_events self env evs1 s in
  match result o1 with
  | Raise ex => mkOutcome (Raise ex) (store o1) (effects o1)
  | Ok _ =>
      let o2 := save_remote_events self env evs2 (store o1) in
      mkOutcome (result o2) (store o2) (effects o1 ++ effects o2)
  end.
Proof.
  revert s. induction evs1 as [|e0 evs1 IH]; intros s.
  { simpl. by rewrite outcome_eta. }
  rewrite <- app_comm_cons, !save_remote_events_cons. cbv zeta.
  destruct (skip_past self env (apply_timezone self e0)) as [[]|ex];
    [apply IH| |done].
  destruct (serialize_result env (apply_timezone self e0)) as [ex|].
  { destruct (uncaught ex); simpl; [done|]. rewrite IH. cbv zeta.
    by destruct (result (save_remote_events self env evs1 s)). }
  destruct (save_event_result env (_wrap (apply_timezone self e0))) as [ex|].
  - destruct (uncaught ex); simpl; [done|]. rewrite IH. cbv zeta.
    by destruct (result (save_remote_events self env evs1 s)).
  - simpl. rewrite IH. cbv zeta.
    by destruct (result (save_remote_events self env evs1 _)).
Qed.

End FirstLoop.

(** ** The listing *)

Section Listing.

Variables (self : ICSToCalDAV) (env : Environment).

Lemma get_local_events_ids_store s :
  store (_get_local_events_ids self env s) = s.
Proof.
  unfold _get_local_events_ids, bind, try_except, local_calendar_events,
    local_calendar_search.
  destruct (sync_all self), (listing_result env) as [ex|]; simpl;
    try destruct ex; simpl;
    try (by destruct (mapM first_uid _)); done.
Qed.

Lemma get_local_events_ids_effects s :
  saved (effects (_get_local_events_ids self env s)) = []
  /\ deleted (effects (_get_local_events_ids self env s)) = []
  /\ listings (effects (_get_local_events_ids self env s))
     = [listing_request self env].
Proof.
  unfold _get_local_events_ids, bind, try_except, local_calendar_events,
    local_calendar_search, listing_request.
  destruct (sync_all self), (listing_result env) as [ex|]; simpl;
    try destruct ex; simpl;
    try (by destruct (mapM first_uid _)); done.
Qed.

Lemma get_local_events_ids_ok s ids :
  result (_get_local_events_ids self env s) = Ok ids ->
  exists l, mapM first_uid (selected self env s) = Some l
            /\ ids = list_to_set l.
Proof.
  unfold _get_local_events_ids, bind, try_except, local_calendar_events,
    local_calendar_search, selected.
  destruct (sync_all self), (listing_result env) as [ex|]; simpl;
    try destruct ex; simpl; try done.
  - destruct (mapM first_uid (resources s)) as [l|]; simpl; [|done].
    intros [= <-]. by exists l.
  - destruct (mapM first_uid (List.filter _ (resources s))) as [l|]; simpl;
      [|done].
    intros [= <-]. by exists l.
Qed.

(** Every listed identity is the UID of the first event of a selected
    resource. *)
Lemma get_local_events_ids_elem s ids id :
  result (_get_local_events_ids self env s) = Ok ids ->
  id ∈ ids ->
  exists c, In c (selected self env s) /\ first_uid c = Some id.
Proof.
  intros (l & Hl%mapM_Some & ->)%get_local_events_ids_ok Hid.
  apply elem_of_list_to_set in Hid.
  induction Hl as [|c id' cs l Hc Hl IH]; [by apply elem_of_nil in Hid|].
  apply elem_of_cons in Hid as [->|Hid].
  - exists c. by split; [left|].
  - destruct (IH Hid) as (c' & ? & ?). exists c'. by split; [right|].
Qed.

End Listing.

(** ** The second loop *)

Section SecondLoop.

Variables (self : ICSToCalDAV) (env : Environment).

Lemma delete_events_cons id ids s :
  delete_events self env (id :: ids) s =
  match delete_result env (resource_url self id) with
  | Some ex => mkOutcome (Raise ex) s [Delete (resource_url self id)]
  | None =>
      let o := delete_events self env ids (delete (resource_url self id) s) in
      mkOutcome (result o) (store o)
        (Delete (resource_url self id) :: Print "-" :: effects o)
  end.
Proof.
  simpl. unfold bind, client_delete, emit.
  destruct (delete_result env (resource_url self id)); simpl; [done|].
  by destruct (result (delete_events self env ids _)).
Qed.

Lemma delete_events_deleted ids s :
  deleted (effects (delete_events self env ids s))
  = List.map (resource_url self) (until_raise self env ids).
Proof.
  revert s. induction ids as [|id ids IH]; intros s; [done|].
  rewrite delete_events_cons. simpl.
  destruct (delete_result env (resource_url self id)); simpl; [done|].
  by rewrite IH.
Qed.

Lemma delete_events_quiet ids s :
  saved (effects (delete_events self env ids s)) = []
  /\ listings (effects (delete_events self env ids s)) = [].
Proof.
  revert s. induction ids as [|id ids IH]; intros s; [done|].
  rewrite delete_events_cons.
  destruct (delete_result env (resource_url self id)); simpl; [done|].
  apply IH.
Qed.

Lemma until_raise_none ids :
  (forall id, In id ids -> delete_result env (resource_url self id) = None) ->
  until_raise self env ids = ids.
Proof.
  induction ids as [|id ids IH]; intros Hnone; [done|].
  simpl. rewrite (Hnone id) by (by left).
  rewrite IH; [done|]. intros id' Hin. apply Hnone. by right.
Qed.

Lemma until_raise_first pre id post ex :
  (forall id', In id' pre -> delete_result env (resource_url self id') = None) ->
  delete_result env (resource_url self id) = Some ex ->
  until_raise self env (pre ++ id :: post) = pre ++ [id].
Proof.
  induction pre as [|p pre IH]; intros Hnone Hex; simpl.
  - by rewrite Hex.
  - rewrite (Hnone p) by (by left).
    rewrite IH; [done| |done]. intros id' Hin. apply Hnone. by right.
Qed.

Lemma until_raise_In id ids : In id (until_raise self env ids) -> In id ids.
Proof.
  induction ids as [|id' ids IH]; [done|]. simpl.
  destruct (delete_result env (resource_url self id')).
  - intros [->|[]]. by left.
  - intros [->|Hin]; [by left|]. right. by apply IH.
Qed.

Lemma delete_events_result_ok ids s :
  (forall id, In id ids -> delete_result env (resource_url self id) = None) ->
  result (delete_events self env ids s) = Ok tt.
Proof.
  revert s. induction ids as [|id ids IH]; intros s Hnone; [done|].
  rewrite delete_events_cons, (Hnone id) by (by left). simpl.
  apply IH. intros id' Hin. apply Hnone. by right.
Qed.

Lemma delete_events_result_raise pre id post ex s :
  (forall id', In id' pre -> delete_result env (resource_url self id') = None) ->
  delete_result env (resource_url self id) = Some ex ->
  result (delete_events self env (pre ++ id :: post) s) = Raise ex.
Proof.
  revert s. induction pre as [|p pre IH]; intros s Hnone Hex.
  - simpl app. by rewrite delete_events_cons, Hex.
  - simpl app. rewrite delete_events_cons, (Hnone p) by (by left). simpl.
    apply IH; [|done]. intros id' Hin. apply Hnone. by right.
Qed.

Lemma delete_events_ok_inv ids s :
  result (delete_events self env ids s) = Ok tt ->
  forall id, In id ids -> delete_result env (resource_url self id) = None.
Proof.
  revert s. induction ids as [|id ids IH]; intros s Hok id' Hin; [done|].
  rewrite delete_events_cons in Hok.
  destruct (delete_result env (resource_url self id)) eqn:Hres; [done|].
  simpl in Hok. destruct Hin as [<-|Hin]; [done|]. by eapply IH.
Qed.

End SecondLoop.

(** ** The shape of a run of [synchronise] *)

Section Run.

Variables (self : ICSToCalDAV) (env : Environment).

Lemma remote_events_ids_all :
  remote_events_ids self
  = list_to_set (List.map uid (events (remote_calendar self))).
Proof.
  unfold remote_events_ids. f_equal. rewrite List.map_map.
  apply List.map_ext. intros e. apply apply_timezone_uid.
Qed.

(** [synchronise], phase by phase. *)
Lemma synchronise_phases s :
  synchronise self env s =
  let o1 := save_remote_events self env (events (remote_calendar self)) s in
  match result o1 with
  | Raise ex => mkOutcome (Raise ex) (store o1) (effects o1)
  | Ok _ =>
      if keep_local self
      then mkOutcome (Ok tt) (store o1)
             (effects o1 ++ [Print newline; Print newline])
      else
        let o2 := _get_local_events_ids self env (store o1) in
        match result o2 with
        | Raise ex =>
            mkOutcome (Raise ex) (store o1)
              (effects o1 ++ Print newline :: effects o2)
        | Ok ids =>
            let o3 := delete_events self env
                        (elements (events_to_delete self ids)) (store o1) in
            match result o3 with
            | Raise ex =>
                mkOutcome (Raise ex) (store o3)
                  (effects o1 ++ Print newline :: effects o2 ++ effects o3)
            | Ok _ =>
                mkOutcome (Ok tt) (store o3)
                  (effects o1 ++ Print newline
                   :: effects o2 ++ effects o3 ++ [Print newline])
            end
        end
  end.
Proof.
  unfold synchronise, bind, emit, ret. cbv zeta.
  set (o1 := save_remote_events self env (events (remote_calendar self)) s).
  destruct (result o1) as [[]|ex]; [|done]. simpl.
  destruct (keep_local self); simpl; [done|].
  pose proof (get_local_events_ids_store self env (store o1)) as Hst.
  destruct (result (_get_local_events_ids self env (store o1)))
    as [ids|ex]; simpl.
  - rewrite Hst.
    destruct (result (delete_events self env _ (store o1))) as [[]|ex]; simpl.
    + by rewrite <- !app_assoc.
    + done.
  - by rewrite Hst.
Qed.

End Run.

(** ** Resource names *)

Lemma string_length_app (a b : string) :
  String.length (a +:+ b) = (String.length a + String.length b)%nat.
Proof. induction a as [|c a IH]; simpl; [done|]. by rewrite IH. Qed.

Lemma string_app_inj_r (a b s : string) : a +:+ s = b +:+ s -> a = b.
Proof.
  revert b. induction a as [|c a IH]; intros [|d b] Heq.
  - done.
  - apply (f_equal String.length) in Heq.
    rewrite !string_length_app in Heq. simpl in Heq. exfalso. lia.
  - apply (f_equal String.length) in Heq.
    rewrite !string_length_app in Heq. simpl in Heq. exfalso. lia.
  - cbn in Heq. injection Heq as -> Heq. f_equal. by apply IH.
Qed.

Lemma resource_url_inj (self : ICSToCalDAV) (id id' : string) :
  resource_url self id = resource_url self id' -> id = id'.
Proof.
  unfold resource_url. intros Heq%String.app_inj. by apply string_app_inj_r in Heq.
Qed.

Section Invariant.

Variables (self : ICSToCalDAV) (env : Environment).

(** The library stores an eligible event under the URL the program
    deletes for its UID when quoting leaves the source UIDs as they are. *)
Lemma saved_url_unquoted evs e :
  stored_unquoted env evs ->
  In e (eligible self env evs) ->
  saved_url self env (uid e) = resource_url self (uid e).
Proof.
  intros Hplain [(e0 & <- & Hin)%in_map_iff _]%eligible_In.
  unfold saved_url, resource_url.
  by rewrite apply_timezone_uid, (Hplain e0 Hin).
Qed.

(** In that case the first loop keeps every resource under the name of
    its UID. *)
Lemma save_remote_events_named evs s :
  stored_unquoted env evs ->
  named_by_uid self s ->
  named_by_uid self (store (save_remote_events self env evs s)).
Proof.
  intros Hplain Hnamed url c Hc.
  destruct (save_remote_events_store self env evs s url)
    as [Hsame|(e & Hel & -> & He)].
  - apply Hnamed. by rewrite <- Hsame.
  - rewrite Hc in He. injection He as ->. exists (uid e).
    split; [done|]. by apply (saved_url_unquoted evs).
Qed.

(** A resource of the store after the first loop that wraps no eligible
    event was there before, under the same URL. *)
Lemma save_remote_events_old evs s url c id :
  store (save_remote_events self env evs s) !! url = Some c ->
  first_uid c = Some id ->
  ~ In id (List.map uid evs) ->
  s !! url = Some c.
Proof.
  intros Hc Hfirst Hnew.
  destruct (save_remote_events_store self env evs s url)
    as [Hsame|(e & Hel%eligible_uid & _ & He)]; [by rewrite <- Hsame|].
  rewrite Hc in He. injection He as ->. simpl in Hfirst.
  injection Hfirst as <-. done.
Qed.

Lemma resources_lookup (s : gmap string Calendar) c :
  In c (resources s) <-> exists url, s !! url = Some c.
Proof.
  unfold resources. rewrite <- list_elem_of_In, list_elem_of_fmap. split.
  - intros ([url c'] & -> & Hin%elem_of_map_to_list). by exists url.
  - intros (url & Hc). exists (url, c). by rewrite elem_of_map_to_list.
Qed.

(** Whatever [delete] is called on was listed and is no source identity. *)
Lemma synchronise_deleted s url :
  In url (deleted (effects (synchronise self env s))) ->
  keep_local self = false
  /\ exists ids id,
       result (_get_local_events_ids self env
                 (store (save_remote_events self env
                           (events (remote_calendar self)) s))) = Ok ids
       /\ id ∈ events_to_delete self ids
       /\ url = resource_url self id.
Proof.
  rewrite synchronise_phases. cbv zeta.
  set (o1 := save_remote_events self env (events (remote_calendar self)) s).
  destruct (save_remote_events_quiet self env
              (events (remote_calendar self)) s) as [Hd1 _].
  fold o1 in Hd1.
  destruct (get_local_events_ids_effects self env (store o1)) as (_ & Hd2 & _).
  destruct (result o1) as [[]|ex]; simpl; [|by rewrite Hd1].
  destruct (keep_local self); simpl.
  { rewrite deleted_app, Hd1. simpl. done. }
  destruct (result (_get_local_events_ids self env (store o1))) as [ids|ex];
    simpl.
  - intros Hin. split; [done|]. exists ids.
    assert (In url (List.map (resource_url self)
              (until_raise self env (elements (events_to_delete self ids)))))
      as (id & <- & Hid%until_raise_In)%in_map_iff.
    { rewrite <- (delete_events_deleted self env _ (store o1)).
      destruct (result (delete_events self env _ (store o1))); simpl in Hin;
        rewrite deleted_app in Hin; simpl in Hin;
        rewrite ?deleted_app, Hd1, Hd2 in Hin; simpl in Hin;
        rewrite ?app_nil_r in Hin; exact Hin. }
    exists id. split; [done|]. split; [|done].
    by apply elem_of_elements, list_elem_of_In.
  - rewrite deleted_app, Hd1. simpl. by rewrite Hd2.
Qed.

(** A run that returns with deletion enabled has deleted the whole of
    [events_to_delete], in the order of iteration. *)
Lemma synchronise_deleted_ok s :
  keep_local self = false ->
  result (synchronise self env s) = Ok tt ->
  exists ids,
    result (_get_local_events_ids self env
              (store (save_remote_events self env
                        (events (remote_calendar self)) s))) = Ok ids
    /\ deleted (effects (synchronise self env s))
       = List.map (resource_url self) (elements (events_to_delete self ids)).
Proof.
  intros Hkeep. rewrite synchronise_phases. cbv zeta.
  set (o1 := save_remote_events self env (events (remote_calendar self)) s).
  destruct (save_remote_events_quiet self env
              (events (remote_calendar self)) s) as [Hd1 _].
  fold o1 in Hd1.
  destruct (get_local_events_ids_effects self env (store o1)) as (_ & Hd2 & _).
  destruct (result o1) as [[]|ex]; simpl; [|done].
  rewrite Hkeep.
  destruct (result (_get_local_events_ids self env (store o1))) as [ids|ex];
    simpl; [|done].
  destruct (result (delete_events self env _ (store o1))) as [[]|ex] eqn:Hok;
    simpl; [|done].
  intros _. exists ids. split; [done|].
  rewrite deleted_app, Hd1. simpl.
  rewrite !deleted_app, Hd2, delete_events_deleted. simpl.
  rewrite app_nil_r, until_raise_none; [done|].
  by apply (delete_events_ok_inv self env _ (store o1)).
Qed.

(** The creates of a run are those of its first loop. *)
Lemma synchronise_saved s :
  saved (effects (synchronise self env s))
  = submitted self env (events (remote_calendar self)).
Proof.
  rewrite <- (save_remote_events_saved self env _ s).
  rewrite synchronise_phases. cbv zeta.
  set (o1 := save_remote_events self env (events (remote_calendar self)) s).
  destruct (get_local_events_ids_effects self env (store o1)) as (Hs2 & _ & _).
  destruct (result o1) as [[]|ex]; simpl; [|done].
  destruct (keep_local self); simpl.
  { rewrite saved_app. simpl. by rewrite app_nil_r. }
  destruct (result (_get_local_events_ids self env (store o1))) as [ids|ex];
    simpl.
  - destruct (delete_events_quiet self env
                (elements (events_to_delete self ids)) (store o1)) as [Hs3 _].
    destruct (result (delete_events self env _ (store o1))); simpl;
      rewrite saved_app; simpl; rewrite !saved_app, Hs2, Hs3; simpl;
      by rewrite ?app_nil_r.
  - rewrite saved_app. simpl. by rewrite Hs2, app_nil_r.
Qed.

End Invariant.

(** * Properties of a run *)

(** ** Creates *)

Lemma filter_all {A} (f : A -> bool) (l : list A) :
  (forall x, In x l -> f x = true) -> List.filter f l = l.
Proof.
  induction l as [|x l IH]; intros Hall; [done|].
  simpl. rewrite (Hall x) by (by left).
  rewrite IH; [done|]. intros y Hy. apply Hall. by right.
Qed.

(** C4, as the code has it.  The documents a run submits to [save_event]
    do not depend on what the destination holds: nothing is looked up
    before a create.  They are exactly the eligible events, in source
    order, each alone in a calendar with the program's creator string,
    provided nothing ends or shortens the first loop: the window test
    raises for no source event (full sync, or every source event has an
    end), [_wrap] raises for no eligible event, and no [save_event] raises
    an exception other than [ValidateError] and [ValueError]. *)
Theorem creates_are_eligible (self : ICSToCalDAV) (env : Environment)
    (s : gmap string Calendar) :
  (forall s', saved (effects (synchronise self env s'))
              = saved (effects (synchronise self env s)))
  /\
  (ends_known self (events (remote_calendar self)) ->
   (forall e, In e (eligible self env (events (remote_calendar self))) ->
              serialize_result env e = None) ->
   (forall e, In e (eligible self env (events (remote_calendar self))) ->
              create_aborts env e = false) ->
   saved (effects (synchronise self env s))
   = List.map
       (fun e => {| events := [e];
                    creator := "Chihiro Software Ltd//Calendar sync//EN" |})
       (eligible self env (events (remote_calendar self)))).
Proof.
  split.
  - intros s'. by rewrite !synchronise_saved.
  - intros Hends Hwrap Hno.
    rewrite synchronise_saved, submitted_complete by done.
    rewrite filter_all; [done|].
    intros e He. unfold wrapped. by rewrite (Hwrap e He).
Qed.

Lemma synchronise_listings (self : ICSToCalDAV) (env : Environment)
    (s : gmap string Calendar) :
  result (save_remote_events self env (events (remote_calendar self)) s)
    = Ok tt ->
  keep_local self = false ->
  listings (effects (synchronise self env s)) = [listing_request self env].
Proof.
  intros Hok Hkeep. rewrite synchronise_phases. cbv zeta.
  rewrite Hok, Hkeep.
  set (o1 := save_remote_events self env (events (remote_calendar self)) s).
  destruct (save_remote_events_quiet self env
              (events (remote_calendar self)) s) as [_ Hl1].
  fold o1 in Hl1.
  destruct (get_local_events_ids_effects self env (store o1)) as (_ & _ & Hl2).
  destruct (result (_get_local_events_ids self env (store o1))) as [ids|ex];
    simpl.
  - destruct (delete_events_quiet self env
                (elements (events_to_delete self ids)) (store o1)) as [_ Hl3].
    destruct (result (delete_events self env _ (store o1))); simpl;
      rewrite listings_app; simpl; rewrite !listings_app, Hl1, Hl2, Hl3;
      by rewrite ?app_nil_r.
  - rewrite listings_app. simpl. by rewrite Hl1, Hl2.
Qed.

Lemma synchronise_effects_prefix (self : ICSToCalDAV) (env : Environment)
    (s : gmap string Calendar) :
  exists rest,
    effects (synchronise self env s)
    = effects (save_remote_events self env (events (remote_calendar self)) s)
      ++ rest.
Proof.
  rewrite synchronise_phases. cbv zeta.
  set (o1 := save_remote_events self env (events (remote_calendar self)) s).
  destruct (result o1); simpl; [|exists []; by rewrite app_nil_r].
  destruct (keep_local self); simpl; [by eexists|].
  destruct (result (_get_local_events_ids self env (store o1))); simpl;
    [|by eexists].
  destruct (result (delete_events self env _ (store o1))); simpl; by eexists.
Qed.

(** A failure the handlers catch leaves a log line among the effects of
    its event. *)
Lemma create_effects_logged (env : Environment) (d : Event) :
  create_result env d = Some ValidateError
  \/ create_result env d = Some ValueError ->
  In (LogException invalid_event_msg) (create_effects env d).
Proof.
  unfold create_result, create_effects.
  destruct (serialize_result env d) as [ex|]; [intros _; by left|].
  intros [-> | ->]; right; by left.
Qed.

(** C5, as the code has it.  When [_wrap] or [save_event] raises
    [ValidateError] or [ValueError] for an eligible event, the failure is
    logged and, provided nothing else ends the first loop (the window test
    raises for no source event and no create raises an exception of
    another class), every eligible event [_wrap] returns for is submitted
    and, with deletion enabled, the run goes on to list the destination for
    the delete phase.  When the create of an event the loop reaches raises
    an exception of another class, the run ends there with that exception:
    its effects are those of the loop up to that event, with no listing
    and no delete. *)
Theorem validation_error_isolated (self : ICSToCalDAV) (env : Environment)
    (s : gmap string Calendar) :
  (forall d,
     In d (eligible self env (events (remote_calendar self))) ->
     (create_result env d = Some ValidateError
      \/ create_result env d = Some ValueError) ->
     ends_known self (events (remote_calendar self)) ->
     (forall e, In e (eligible self env (events (remote_calendar self))) ->
                create_aborts env e = false) ->
     In (LogException invalid_event_msg) (effects (synchronise self env s))
     /\ saved (effects (synchronise self env s))
        = List.map _wrap
            (List.filter (wrapped env)
               (eligible self env (events (remote_calendar self))))
     /\ (keep_local self = false ->
         listings (effects (synchronise self env s))
         = [listing_request self env]))
  /\
  (forall pre e0 post ex,
     events (remote_calendar self) = pre ++ e0 :: post ->
     result (save_remote_events self env pre s) = Ok tt ->
     skip_past self env (apply_timezone self e0) = Ok false ->
     create_result env (apply_timezone self e0) = Some ex ->
     uncaught ex = true ->
     result (synchronise self env s) = Raise ex
     /\ effects (synchronise self env s)
        = effects (save_remote_events self env (pre ++ [e0]) s)
     /\ store (synchronise self env s)
        = store (save_remote_events self env pre s)
     /\ listings (effects (synchronise self env s)) = []
     /\ deleted (effects (synchronise self env s)) = []).
Proof.
  split.
  - intros d Hd Hfail Hends Hno.
    destruct (save_remote_events_complete self env _ s Hends Hno)
      as [Hok Heff].
    split; [|split].
    + destruct (synchronise_effects_prefix self env s) as [rest ->].
      apply in_or_app. left. rewrite Heff. apply in_flat_map.
      exists d. split; [done|]. by apply create_effects_logged.
    + by rewrite synchronise_saved, submitted_complete.
    + intros Hkeep. by apply synchronise_listings.
  - intros pre e0 post ex Hsplit Hpre Hskip Hcreate Hunc.
    assert (forall rest,
      save_remote_events self env (pre ++ e0 :: rest) s
      = mkOutcome (Raise ex) (store (save_remote_events self env pre s))
          (effects (save_remote_events self env pre s)
           ++ if wrapped env (apply_timezone self e0)
              then [SaveEvent (_wrap (apply_timezone self e0))] else []))
      as Hloop.
    { intros rest. rewrite save_remote_events_app. cbv zeta. rewrite Hpre.
      rewrite save_remote_events_cons. cbv zeta. rewrite Hskip.
      unfold create_result in Hcreate. unfold wrapped.
      destruct (serialize_result env (apply_timezone self e0)) as [ex'|].
      - injection Hcreate as ->. by rewrite Hunc.
      - rewrite Hcreate, Hunc. done. }
    rewrite synchronise_phases. cbv zeta. rewrite Hsplit, !Hloop. simpl.
    destruct (save_remote_events_quiet self env pre s) as [Hd Hl].
    rewrite listings_app, deleted_app, Hd, Hl.
    by destruct (wrapped env (apply_timezone self e0)).
Qed.

(** ** Deletes *)

(** C1, as the code has it.  In a run with deletion enabled that returns,
    the URLs deleted are those of the destination listing, taken after the
    creates, minus the identities of all the source events, eligible or
    not. *)
Theorem deleted_is_listing_minus_source (self : ICSToCalDAV)
    (env : Environment) (s : gmap string Calendar) :
  keep_local self = false ->
  result (synchronise self env s) = Ok tt ->
  exists ids,
    result (_get_local_events_ids self env
              (store (save_remote_events self env
                        (events (remote_calendar self)) s))) = Ok ids
    /\ deleted (effects (synchronise self env s))
       = List.map (resource_url self)
           (elements
              (ids ∖ list_to_set
                       (List.map uid (events (remote_calendar self))))).
Proof.
  intros Hkeep Hok.
  destruct (synchronise_deleted_ok self env s Hkeep Hok) as (ids & Hids & Hdel).
  exists ids. split; [done|].
  by rewrite Hdel; unfold events_to_delete; rewrite remote_events_ids_all.
Qed.

(** C6, as the code has it.  The second loop deletes the identities in the
    order of iteration.  When no deletion raises, all of them are deleted;
    a deletion that raises ends the loop with that exception, and the
    identities after it are not attempted. *)
Theorem delete_stops_at_first_raise (self : ICSToCalDAV) (env : Environment)
    (ids : list string) (s : gmap string Calendar) :
  ((forall id, In id ids -> delete_result env (resource_url self id) = None) ->
   result (delete_events self env ids s) = Ok tt
   /\ deleted (effects (delete_events self env ids s))
      = List.map (resource_url self) ids)
  /\
  (forall pre id post ex,
     ids = pre ++ id :: post ->
     (forall id', In id' pre ->
                  delete_result env (resource_url self id') = None) ->
     delete_result env (resource_url self id) = Some ex ->
     result (delete_events self env ids s) = Raise ex
     /\ deleted (effects (delete_events self env ids s))
        = List.map (resource_url self) (pre ++ [id])).
Proof.
  split.
  - intros Hnone. split; [by apply delete_events_result_ok|].
    by rewrite delete_events_deleted, until_raise_none.
  - intros pre id post ex -> Hnone Hex.
    split; [by apply delete_events_result_raise|].
    by rewrite delete_events_deleted, (until_raise_first _ _ _ _ _ ex).
Qed.

(** C8.  Whatever the destination listing, the set computed for deletion
    is included in it and holds the identity of no eligible source event;
    and every URL a run deletes is that of a member of the set computed
    from the run's listing. *)
Theorem deletion_soundness (self : ICSToCalDAV) (env : Environment)
    (s : gmap string Calendar) :
  (forall ids : gset string,
     events_to_delete self ids ⊆ ids
     /\ forall e, In e (eligible self env (events (remote_calendar self))) ->
                  uid e ∉ events_to_delete self ids)
  /\
  (forall url, In url (deleted (effects (synchronise self env s))) ->
     exists ids id,
       result (_get_local_events_ids self env
                 (store (save_remote_events self env
                           (events (remote_calendar self)) s))) = Ok ids
       /\ id ∈ events_to_delete self ids
       /\ url = resource_url self id).
Proof.
  split.
  - intros ids. unfold events_to_delete.
    split; [intros id Hid; apply elem_of_difference in Hid; tauto|].
    intros e Hin%eligible_uid. rewrite remote_events_ids_all.
    apply list_elem_of_In in Hin.
    rewrite elem_of_difference, elem_of_list_to_set. tauto.
  - intros url Hin. by apply synchronise_deleted in Hin as [_ ?].
Qed.


(** ** The loop of [main] *)

(** C7, as the code has it.  When fetching or parsing the remote calendar
    raises during a cycle, the exception leaves the loop of [main]: the
    cycle has sent neither a create nor a delete, the store is as it was,
    and no later cycle is started, with or without [SYNC_EVERY]. *)
Theorem fetch_failure_ends_main_loop (gettz : string -> option tzinfo)
    (settings : Settings) (sync_every : option string)
    (input : CycleInput) (later : list CycleInput)
    (s : gmap string Calendar) (ex : Exception) :
  remote_calendar_result input = Raise ex ->
  exists ex',
    main_loop gettz settings sync_every (input :: later) s
    = mkOutcome (Raise ex') s [LogInfo "starting sync"].
Proof.
  intros Hfetch. simpl. unfold bind, emit, lift, __init__. simpl.
  rewrite Hfetch.
  destruct (local_calendar_result input) as [url|ex0]; simpl; by eexists.
Qed.

(** * Runs on concrete data *)

Import Examples.

(** The scenario of C1: the source has [x], over, and [y], still to come;
    the destination lists [x] and [z].  The listing minus the eligible
    identities holds [x], yet the run deletes [z] alone. *)
Lemma past_source_event_not_deleted :
  let self := source_xy in
  let env := quiet 1000 in
  let evs := events (remote_calendar self) in
  let o := synchronise self env store_x_z in
  keep_local self = false
  /\ sync_all self = false
  /\ eligible self env evs = [y_future]
  /\ result (_get_local_events_ids self env
               (store (save_remote_events self env evs store_x_z)))
     = Ok (list_to_set ["x"; "y"; "z"])
  /\ result o = Ok tt
  /\ saved (effects o) = [_wrap y_future]
  /\ deleted (effects o) = [resource_url self "z"]
  /\ deleted (effects o)
     <> List.map (resource_url self)
          (elements ((list_to_set ["x"; "y"; "z"] : gset string)
                     ∖ list_to_set (List.map uid (eligible self env evs)))).
Proof. vm_compute. repeat split; discriminate. Qed.

(** The same source against a destination whose [x] is over as well: the
    search does not list [x], and again only [z] is deleted. *)
Lemma past_destination_event_not_deleted :
  deleted (effects (synchronise source_xy (quiet 1000) store_oldx_z))
  = [resource_url source_xy "z"].
Proof. vm_compute. reflexivity. Qed.

(** C2 under a zone override: the source event [w] ends, in UTC, before
    the current instant; forcing the zone [new_york] re-labels its end to a
    later instant, and the event is eligible and submitted. *)
Lemma rezoned_past_event_kept :
  let self := zoned [w_past] in
  let env := quiet 1000 in
  sync_all self = false
  /\ In w_past (events (remote_calendar self))
  /\ end_ w_past = Some (utc 900)
  /\ utcoffset (utc 900) = Some 0
  /\ wall (utc 900) - 0 < now_aware env
  /\ eligible self env [w_past] = [apply_timezone self w_past]
  /\ uid (apply_timezone self w_past) = uid w_past
  /\ saved (effects (synchronise self env ∅))
     = [_wrap (apply_timezone self w_past)].
Proof. vm_compute. repeat split. left. reflexivity. Qed.

(** C3 at an end equal to the naive current time: the event is eligible
    and is submitted. *)
Lemma naive_end_equal_to_now_kept :
  let self := syncer [naive_now] false true in
  let env := quiet 1000 in
  sync_all self = false
  /\ end_ naive_now = Some (naive 1000)
  /\ is_aware (naive 1000) = false
  /\ wall (naive 1000) = now_naive env
  /\ eligible self env [naive_now] = [naive_now]
  /\ saved (effects (synchronise self env ∅)) = [_wrap naive_now].
Proof. vm_compute. repeat split. Qed.

(** The same event under the zone [tokyo]: its end is re-labelled, is
    aware when the window test reads it, and lies before the current
    instant; the event is dropped. *)
Lemma rezoned_naive_end_dropped :
  let self := zoned_east [naive_now] in
  let env := quiet 1000 in
  end_ naive_now = Some (naive 1000)
  /\ wall (naive 1000) = now_naive env
  /\ end_ (apply_timezone self naive_now)
     = Some (DateTime 1000 (Some tokyo))
  /\ is_aware (DateTime 1000 (Some tokyo)) = true
  /\ eligible self env [naive_now] = [].
Proof. vm_compute. repeat split. Qed.

(** A create that raises a connection error ends the first loop: [b] is
    eligible and is not submitted. *)
Lemma later_event_not_submitted :
  let self := source_ab true in
  let env := failing_save "a" connection_error 1000 in
  let o := synchronise self env ∅ in
  eligible self env (events (remote_calendar self)) = [a_future; b_future]
  /\ saved (effects o) = [_wrap a_future]
  /\ ~ In (_wrap b_future) (saved (effects o))
  /\ saved (effects o)
     <> List.map _wrap (eligible self env (events (remote_calendar self))).
Proof.
  vm_compute. repeat split; try discriminate.
  intros [Heq|[]]. discriminate Heq.
Qed.

(** C5 when the create that fails raises a connection error: the run ends
    there, with no further create, no listing and no delete, although the
    destination holds the stale [z]. *)
Lemma transport_error_aborts_run :
  let self := source_ab false in
  let env := failing_save "a" connection_error 1000 in
  let o := synchronise self env store_z in
  keep_local self = false
  /\ save_event_result env (_wrap a_future) = Some connection_error
  /\ result o = Raise connection_error
  /\ effects o = [SaveEvent (_wrap a_future)]
  /\ ~ In (_wrap b_future) (saved (effects o))
  /\ listings (effects o) = []
  /\ deleted (effects o) = []
  /\ store o = store_z.
Proof.
  vm_compute. repeat split.
  intros [Heq|[]]. discriminate Heq.
Qed.

(** An event without an end makes the window test raise, though no create
    has failed: the run ends before [b] is submitted and before the delete
    phase. *)
Lemma timeless_event_aborts_run :
  let self := syncer [a_future; timeless "t"; b_future] false false in
  let env := quiet 1000 in
  let o := synchronise self env store_z in
  result o = Raise AttributeError
  /\ saved (effects o) = [_wrap a_future]
  /\ listings (effects o) = []
  /\ deleted (effects o) = [].
Proof. vm_compute. repeat split. Qed.

(** An event [_wrap] raises [ValueError] for is logged and passed over
    without [save_event] being called for it. *)
Lemma unwrappable_event_not_submitted :
  let self := source_ab true in
  let env := failing_wrap "a" ValueError 1000 in
  let o := synchronise self env ∅ in
  eligible self env (events (remote_calendar self)) = [a_future; b_future]
  /\ result o = Ok tt
  /\ saved (effects o) = [_wrap b_future]
  /\ In (LogException invalid_event_msg) (effects o).
Proof. vm_compute. repeat split. left. reflexivity. Qed.

(** C6 when the first deletion raises: [a] and [b] are both to be
    deleted, the deletion of [a] raises, and [b] is never attempted. *)
Lemma later_identity_not_deleted :
  let self := syncer [] false false in
  let env := failing_delete (url_of "a") connection_error 1000 in
  let o := synchronise self env store_a_b in
  result (_get_local_events_ids self env store_a_b)
    = Ok (list_to_set ["a"; "b"])
  /\ elements (events_to_delete self (list_to_set ["a"; "b"])) = ["a"; "b"]
  /\ delete_result env (resource_url self "b") = None
  /\ result o = Raise connection_error
  /\ deleted (effects o) = [resource_url self "a"]
  /\ ~ In (resource_url self "b") (deleted (effects o))
  /\ store o = store_a_b.
Proof.
  vm_compute. repeat split.
  intros [Heq|[]]. discriminate Heq.
Qed.

(** C7 with an interval configured: the first cycle fails to fetch, the
    second would have created [y]; the loop ends in the first. *)
Lemma no_cycle_after_fetch_failure :
  let cycles := [cycle_fetch_fails 1000; cycle_ok [y_future] 1050] in
  let o := main_loop no_zone (settings0 false) (Some "in 1 hour") cycles ∅ in
  result o = Raise connection_error
  /\ effects o = [LogInfo "starting sync"]
  /\ saved (effects o) = []
  /\ saved (effects (main_loop no_zone (settings0 false) (Some "in 1 hour")
                      [cycle_ok [y_future] 1050] ∅))
     = [_wrap y_future].
Proof. vm_compute. repeat split. Qed.


(** ** The theorems at concrete inputs *)

Lemma window_correctness_witness :
  ~ In x_past (eligible source_xy (quiet 1000) [x_past; y_future])
  /\ (~ In x_past (eligible source_xy (quiet 1000) [x_past; y_future])
      /\ ~ In (apply_timezone source_xy x_past)
             (eligible source_xy (quiet 1000) [x_past; y_future]))
  /\ eligible (syncer [x_past; y_future] true false) (quiet 1000)
       [x_past; y_future]
     = List.map (apply_timezone (syncer [x_past; y_future] true false))
         [x_past; y_future].
Proof.
  destruct (window_correctness source_xy (quiet 1000) [x_past; y_future])
    as (Hout & Hin & _).
  split; [|split].
  - apply (Hout eq_refl x_past (utc 900) 0).
    + reflexivity.
    + reflexivity.
    + vm_compute. reflexivity.
  - apply (Hin eq_refl x_past (utc 900) 0).
    + by left.
    + by left.
    + reflexivity.
    + reflexivity.
    + vm_compute. reflexivity.
  - apply (proj2 (proj2 (window_correctness
                           (syncer [x_past; y_future] true false)
                           (quiet 1000) [x_past; y_future])) eq_refl).
Defined.

Lemma naive_end_window_witness :
  let self := syncer [naive_now] false true in
  sync_all self = false
  /\ In naive_now [naive_now]
  /\ end_ (apply_timezone self naive_now) = Some (naive 1000)
  /\ is_aware (naive 1000) = false
  /\ (In (apply_timezone self naive_now)
         (eligible self (quiet 1000) [naive_now])
      <-> now_naive (quiet 1000) <= wall (naive 1000))
  /\ (In naive_now (eligible self (quiet 1000) [naive_now])
      <-> now_naive (quiet 1000) <= wall (naive 1000)).
Proof.
  destruct (naive_end_window (syncer [naive_now] false true) (quiet 1000)
              [naive_now] naive_now (naive 1000) eq_refl
              (or_introl eq_refl)) as [Hread Hsource].
  split; [reflexivity|]. split; [by left|]. split; [reflexivity|].
  split; [reflexivity|]. split.
  - apply Hread; reflexivity.
  - apply Hsource; [by left|reflexivity|reflexivity].
Defined.

(** The destination already holds [y]; [y] is submitted all the same. *)
Lemma creates_are_eligible_witness :
  let self := syncer [y_future] false true in
  store_y !! resource_url self "y" = Some (_wrap y_future)
  /\ ends_known self (events (remote_calendar self))
  /\ saved (effects (synchronise self (quiet 1000) ∅))
     = saved (effects (synchronise self (quiet 1000) store_y))
  /\ saved (effects (synchronise self (quiet 1000) store_y))
     = List.map
         (fun e => {| events := [e];
                      creator := "Chihiro Software Ltd//Calendar sync//EN" |})
         (eligible self (quiet 1000) (events (remote_calendar self))).
Proof.
  assert (ends_known (syncer [y_future] false true) [y_future]) as Hends.
  { right. intros e [<-|[]]. by eexists. }
  split; [vm_compute; reflexivity|]. split; [exact Hends|].
  destruct (creates_are_eligible (syncer [y_future] false true) (quiet 1000)
              store_y) as [Hsame Hall].
  split; [apply Hsame|]. apply Hall.
  - exact Hends.
  - intros e _. reflexivity.
  - intros e _. reflexivity.
Defined.

Lemma failing_save_validate_no_abort (e : Event) :
  create_aborts (failing_save "a" ValidateError 1000) e = false.
Proof.
  unfold create_aborts, create_result, failing_save. simpl.
  by destruct (String.eqb (uid e) "a").
Qed.

Lemma ends_known_ab (keep : bool) :
  ends_known (source_ab keep) (events (remote_calendar (source_ab keep))).
Proof. right. intros e [<-|[<-|[]]]; by eexists. Qed.

Lemma ends_known_xy :
  ends_known source_xy (events (remote_calendar source_xy)).
Proof. right. intros e [<-|[<-|[]]]; by eexists. Qed.

Lemma validation_error_isolated_witness :
  let self := source_ab false in
  let env := failing_save "a" ValidateError 1000 in
  let bad := failing_save "b" connection_error 1000 in
  (In a_future (eligible self env (events (remote_calendar self)))
   /\ create_result env a_future = Some ValidateError
   /\ In (LogException invalid_event_msg)
         (effects (synchronise self env store_z))
   /\ saved (effects (synchronise self env store_z))
      = List.map _wrap
          (List.filter (wrapped env)
             (eligible self env (events (remote_calendar self))))
   /\ (keep_local self = false ->
       listings (effects (synchronise self env store_z))
       = [listing_request self env]))
  /\
  (events (remote_calendar self) = [a_future] ++ b_future :: []
   /\ create_result bad (apply_timezone self b_future)
      = Some connection_error
   /\ result (synchronise self bad store_z) = Raise connection_error
   /\ effects (synchronise self bad store_z)
      = effects (save_remote_events self bad ([a_future] ++ [b_future])
                   store_z)
   /\ store (synchronise self bad store_z)
      = store (save_remote_events self bad [a_future] store_z)
   /\ listings (effects (synchronise self bad store_z)) = []
   /\ deleted (effects (synchronise self bad store_z)) = []).
Proof.
  destruct (validation_error_isolated (source_ab false)
              (failing_save "a" ValidateError 1000) store_z) as [Hcaught _].
  destruct (validation_error_isolated (source_ab false)
              (failing_save "b" connection_error 1000) store_z)
    as [_ Hends].
  split.
  - split; [by left|]. split; [reflexivity|].
    apply (Hcaught a_future).
    + by left.
    + left. reflexivity.
    + apply ends_known_ab.
    + intros e _. apply failing_save_validate_no_abort.
  - split; [reflexivity|]. split; [reflexivity|].
    apply (Hends [a_future] b_future [] connection_error); reflexivity.
Defined.

Lemma deleted_is_listing_minus_source_witness :
  keep_local source_xy = false
  /\ result (synchronise source_xy (quiet 1000) store_x_z) = Ok tt
  /\ exists ids,
       result (_get_local_events_ids source_xy (quiet 1000)
                 (store (save_remote_events source_xy (quiet 1000)
                           (events (remote_calendar source_xy)) store_x_z)))
       = Ok ids
       /\ deleted (effects (synchronise source_xy (quiet 1000) store_x_z))
          = List.map (resource_url source_xy)
              (elements
                 (ids ∖ list_to_set
                          (List.map uid (events (remote_calendar source_xy))))).
Proof.
  split; [reflexivity|]. split; [vm_compute; reflexivity|].
  apply (deleted_is_listing_minus_source source_xy (quiet 1000) store_x_z).
  - reflexivity.
  - vm_compute. reflexivity.
Defined.

Lemma delete_stops_at_first_raise_witness :
  let self := syncer [] false false in
  let env := failing_delete (url_of "b") connection_error 1000 in
  (result (delete_events self (quiet 1000) ["a"; "b"] store_a_b) = Ok tt
   /\ deleted (effects (delete_events self (quiet 1000) ["a"; "b"] store_a_b))
      = List.map (resource_url self) ["a"; "b"])
  /\ (result (delete_events self env ["a"; "b"; "c"] store_a_b)
      = Raise connection_error
      /\ deleted (effects (delete_events self env ["a"; "b"; "c"] store_a_b))
         = List.map (resource_url self) (["a"] ++ ["b"])).
Proof.
  split.
  - apply (proj1 (delete_stops_at_first_raise (syncer [] false false)
                    (quiet 1000) ["a"; "b"] store_a_b)).
    intros id _. reflexivity.
  - apply (proj2 (delete_stops_at_first_raise (syncer [] false false)
                    (failing_delete (url_of "b") connection_error 1000)
                    ["a"; "b"; "c"] store_a_b) ["a"] "b" ["c"]
             connection_error).
    + reflexivity.
    + intros id [<-|[]]. reflexivity.
    + reflexivity.
Defined.

Lemma deletion_soundness_witness :
  In y_future
     (eligible source_xy (quiet 1000) (events (remote_calendar source_xy)))
  /\ events_to_delete source_xy (list_to_set ["x"; "y"; "z"])
     ⊆ list_to_set ["x"; "y"; "z"]
  /\ uid y_future ∉ events_to_delete source_xy (list_to_set ["x"; "y"; "z"]).
Proof.
  split; [by left|].
  destruct (proj1 (deletion_soundness source_xy (quiet 1000) store_x_z)
              (list_to_set ["x"; "y"; "z"])) as [Hsub Hdisjoint].
  split; [exact Hsub|]. apply Hdisjoint. by left.
Defined.

Lemma named_by_uid_empty (self : ICSToCalDAV) : named_by_uid self ∅.
Proof. intros url c Hc. by rewrite lookup_empty in Hc. Qed.

Lemma named_by_uid_insert (self : ICSToCalDAV) (s : gmap string Calendar)
    (e : Event) :
  named_by_uid self s ->
  named_by_uid self (<[resource_url self (uid e) := _wrap e]> s).
Proof.
  intros Hnamed url c [[<- <-]|[_ Hc]]%lookup_insert_Some.
  - by exists (uid e).
  - by apply Hnamed.
Qed.


Lemma fetch_failure_ends_main_loop_witness :
  remote_calendar_result (cycle_fetch_fails 1000) = Raise connection_error
  /\ exists ex',
       main_loop no_zone (settings0 false) (Some "in 1 hour")
         (cycle_fetch_fails 1000 :: [cycle_ok [y_future] 1050]) ∅
       = mkOutcome (Raise ex') ∅ [LogInfo "starting sync"].
Proof.
  split; [reflexivity|].
  apply (fetch_failure_ends_main_loop no_zone (settings0 false)
           (Some "in 1 hour") (cycle_fetch_fails 1000)
           [cycle_ok [y_future] 1050] ∅ connection_error).
  reflexivity.
Defined.

(** * Further properties *)

(** ** The window test *)

(** X1.  With [sync_all] false, a source event whose end, as the loop
    reads it, is aware is eligible exactly when the aware current instant
    is not after that end. *)
Theorem aware_end_window (self : ICSToCalDAV) (env : Environment)
    (remote_events : list Event) (e : Event) (d : datetime) (off : Z) :
  sync_all self = false ->
  In e remote_events ->
  end_ (apply_timezone self e) = Some d ->
  utcoffset d = Some off ->
  (In (apply_timezone self e) (eligible self env remote_events)
   <-> now_aware env <= wall d - off).
Proof.
  intros Hall Hin Hend Hoff. rewrite eligible_In.
  rewrite (passes_aware self env _ d off Hall Hend Hoff).
  rewrite negb_true_iff, Z.ltb_ge.
  split; [tauto|]. intros Hle. split; [|done]. by apply in_map.
Qed.

(** X2.  As the clocks advance the eligible events can only drop out: an
    event eligible at later clock readings is eligible at earlier ones. *)
Theorem eligible_shrinks_with_time (self : ICSToCalDAV)
    (env env' : Environment) (remote_events : list Event) (e : Event) :
  now_naive env <= now_naive env' ->
  now_aware env <= now_aware env' ->
  In e (eligible self env' remote_events) ->
  In e (eligible self env remote_events).
Proof.
  intros Hnaive Haware. rewrite !eligible_In. intros [Hin Hkeep].
  split; [done|]. revert Hkeep. unfold passes, skip_past.
  destruct (negb (sync_all self)); [|done].
  destruct (end_ e) as [d|]; [|done].
  destruct (is_aware d).
  - unfold aware_gt. destruct (utcoffset d) as [off|]; [|done].
    destruct (wall d - off <? now_aware env') eqn:Hlater; [done|].
    intros _. apply Z.ltb_ge in Hlater.
    assert ((wall d - off <? now_aware env) = false) as ->; [|done].
    apply Z.ltb_ge. lia.
  - unfold naive_gt.
    destruct (wall d <? now_naive env') eqn:Hlater; [done|].
    intros _. apply Z.ltb_ge in Hlater.
    assert ((wall d <? now_naive env) = false) as ->; [|done].
    apply Z.ltb_ge. lia.
Qed.

(** X3.  Every eligible event comes from a source event with the same
    UID, the same wall-clock begin and end, the same all-day flag and the
    same description: the zone override re-labels, it does not shift.  An
    all-day event, and any event when no zone is configured, is passed on
    as it is. *)
Theorem eligible_keeps_wall_clock (self : ICSToCalDAV) (env : Environment)
    (remote_events : list Event) (e' : Event) :
  In e' (eligible self env remote_events) ->
  exists e,
    In e remote_events
    /\ uid e' = uid e
    /\ option_map wall (begin e') = option_map wall (begin e)
    /\ option_map wall (end_ e') = option_map wall (end_ e)
    /\ all_day e' = all_day e
    /\ description e' = description e
    /\ (is_all_day e = true -> e' = e)
    /\ (timezone self = None -> e' = e).
Proof.
  rewrite eligible_In, in_map_iff. intros [(e & <- & Hin) _].
  exists e. split; [done|]. unfold apply_timezone.
  destruct (timezone self) as [tz|]; [|done].
  destruct (is_all_day e); simpl; [done|].
  by destruct (begin e), (end_ e).
Qed.

(** ** Configuration and the loop of [main] *)

(** X4.  When one of the five required variables is unset, [main] raises
    for the first unset one in the order it reads them, before any cycle:
    it sends nothing and leaves the store as it was. *)
Theorem missing_variable_stops_main (gettz : string -> option tzinfo)
    (dehumanize_ok : string -> bool) (environ : string -> option string)
    (cycles : list CycleInput) (s : gmap string Calendar) (var : string) :
  In var required_variables ->
  environ var = None ->
  exists before first after,
    required_variables = before ++ first :: after
    /\ (forall v, In v before -> is_Some (environ v))
    /\ environ first = None
    /\ main gettz dehumanize_ok environ cycles s
       = mkOutcome (Raise (EnvironmentUnset first)) s [].
Proof.
  intros Hvar Hunset.
  unfold main, bind, lift, read_settings, result_bind, getenv_or_raise.
  destruct (environ "REMOTE_URL") as [v1|] eqn:H1.
  2:{ exists [], "REMOTE_URL", (tl required_variables).
      repeat split; done. }
  destruct (environ "LOCAL_URL") as [v2|] eqn:H2.
  2:{ exists ["REMOTE_URL"], "LOCAL_URL",
        ["LOCAL_CALENDAR_NAME"; "LOCAL_USERNAME"; "LOCAL_PASSWORD"].
      repeat split; try done. intros v [<-|[]]. by rewrite H1. }
  destruct (environ "LOCAL_CALENDAR_NAME") as [v3|] eqn:H3.
  2:{ exists ["REMOTE_URL"; "LOCAL_URL"], "LOCAL_CALENDAR_NAME",
        ["LOCAL_USERNAME"; "LOCAL_PASSWORD"].
      repeat split; try done.
      intros v [<-|[<-|[]]]; by rewrite ?H1, ?H2. }
  destruct (environ "LOCAL_USERNAME") as [v4|] eqn:H4.
  2:{ exists ["REMOTE_URL"; "LOCAL_URL"; "LOCAL_CALENDAR_NAME"],
        "LOCAL_USERNAME", ["LOCAL_PASSWORD"].
      repeat split; try done.
      intros v [<-|[<-|[<-|[]]]]; by rewrite ?H1, ?H2, ?H3. }
  destruct (environ "LOCAL_PASSWORD") as [v5|] eqn:H5.
  2:{ exists ["REMOTE_URL"; "LOCAL_URL"; "LOCAL_CALENDAR_NAME";
              "LOCAL_USERNAME"], "LOCAL_PASSWORD", [].
      repeat split; try done.
      intros v [<-|[<-|[<-|[<-|[]]]]]; by rewrite ?H1, ?H2, ?H3, ?H4. }
  exfalso. unfold required_variables in Hvar.
  destruct Hvar as [<-|[<-|[<-|[<-|[<-|[]]]]]]; congruence.
Qed.

(** X5.  When the five required variables are set, the settings are read
    without error: the required values are passed on unchanged, [SYNC_ALL]
    and [KEEP_LOCAL] are on exactly when set to a non-empty string (whatever
    the string says), and [TIMEZONE] counts as absent when unset or
    empty. *)
Theorem settings_from_environment (environ : string -> option string) :
  (forall v, In v required_variables -> is_Some (environ v)) ->
  exists st,
    read_settings environ = Ok st
    /\ environ "REMOTE_URL" = Some (arg_remote_url st)
    /\ environ "LOCAL_URL" = Some (arg_local_url st)
    /\ environ "LOCAL_CALENDAR_NAME" = Some (arg_local_calendar_name st)
    /\ environ "LOCAL_USERNAME" = Some (arg_local_username st)
    /\ environ "LOCAL_PASSWORD" = Some (arg_local_password st)
    /\ (arg_sync_all st = true
        <-> exists v, environ "SYNC_ALL" = Some v /\ v <> "")
    /\ (arg_keep_local st = true
        <-> exists v, environ "KEEP_LOCAL" = Some v /\ v <> "")
    /\ (arg_timezone st = None
        <-> environ "TIMEZONE" = None \/ environ "TIMEZONE" = Some "")
    /\ (forall name, arg_timezone st = Some name ->
                     environ "TIMEZONE" = Some name).
Proof.
  intros Hset.
  assert (forall var, (getenv_bool environ var = true
                       <-> exists v, environ var = Some v /\ v <> ""))
    as Hbool.
  { intros var. unfold getenv_bool. destruct (environ var) as [v|].
    - destruct (String.eqb_spec v "") as [->|Hne]; simpl.
      + split; [done|]. by intros (v & [= <-] & Hne).
      + split; [|done]. intros _. by exists v.
    - split; [done|]. by intros (v & ? & _). }
  unfold read_settings, result_bind, getenv_or_raise.
  destruct (Hset "REMOTE_URL") as [v1 ->]; [by left|].
  destruct (Hset "LOCAL_URL") as [v2 ->]; [right; by left|].
  destruct (Hset "LOCAL_CALENDAR_NAME") as [v3 ->];
    [right; right; by left|].
  destruct (Hset "LOCAL_USERNAME") as [v4 ->];
    [right; right; right; by left|].
  destruct (Hset "LOCAL_PASSWORD") as [v5 ->];
    [right; right; right; right; by left|].
  eexists. split; [reflexivity|]. simpl.
  split_and!; try done; try apply Hbool.
  - destruct (environ "TIMEZONE") as [[|c tz]|]; split; try done.
    + intros _. by right.
    + by intros [|].
    + intros _. by left.
  - intros name. by destruct (environ "TIMEZONE") as [[|c tz]|].
Qed.

Lemma read_settings_ok (environ : string -> option string) :
  (forall v, In v required_variables -> is_Some (environ v)) ->
  exists st, read_settings environ = Ok st.
Proof.
  intros Hset. unfold read_settings, result_bind, getenv_or_raise.
  destruct (Hset "REMOTE_URL") as [v1 ->]; [by left|].
  destruct (Hset "LOCAL_URL") as [v2 ->]; [right; by left|].
  destruct (Hset "LOCAL_CALENDAR_NAME") as [v3 ->];
    [right; right; by left|].
  destruct (Hset "LOCAL_USERNAME") as [v4 ->];
    [right; right; right; by left|].
  destruct (Hset "LOCAL_PASSWORD") as [v5 ->];
    [right; right; right; right; by left|].
  by eexists.
Qed.

(** X6.  A [SYNC_EVERY] value the interval parser rejects makes [main]
    raise [ValueError] before any cycle. *)
Theorem invalid_sync_every_stops_main (gettz : string -> option tzinfo)
    (dehumanize_ok : string -> bool) (environ : string -> option string)
    (cycles : list CycleInput) (s : gmap string Calendar) (value : string) :
  (forall v, In v required_variables -> is_Some (environ v)) ->
  environ "SYNC_EVERY" = Some value ->
  dehumanize_ok ("in " +:+ value) = false ->
  main gettz dehumanize_ok environ cycles s = mkOutcome (Raise ValueError) s [].
Proof.
  intros Hset Hevery Hbad.
  destruct (read_settings_ok environ Hset) as (st & Hst).
  unfold main, bind, lift. rewrite Hst. simpl.
  unfold read_sync_every. by rewrite Hevery, Hbad.
Qed.

(** X7.  Without an interval the loop runs one cycle: what later cycles
    would meet plays no part, and the loop has ended, with [Finished] or
    with an exception. *)
Theorem single_run_without_interval (gettz : string -> option tzinfo)
    (settings : Settings) (input : CycleInput) (later : list CycleInput)
    (s : gmap string Calendar) :
  main_loop gettz settings None (input :: later) s
  = main_loop gettz settings None [input] s
  /\ result (main_loop gettz settings None (input :: later) s) <> Ok Pending.
Proof.
  split; [done|]. simpl. unfold bind, emit, lift, ret. simpl.
  destruct (__init__ gettz settings input) as [self|ex]; simpl; [|done].
  by destruct (result (synchronise self (cycle_env input) s)).
Qed.

(** X8.  With an interval, a cycle that returns is followed by the next
    one, which starts from the store the cycle left; nothing else is
    carried over. *)
Theorem cycles_run_in_sequence (gettz : string -> option tzinfo)
    (settings : Settings) (interval : string) (input : CycleInput)
    (later : list CycleInput) (s : gmap string Calendar)
    (self : ICSToCalDAV) :
  __init__ gettz settings input = Ok self ->
  result (synchronise self (cycle_env input) s) = Ok tt ->
  main_loop gettz settings (Some interval) (input :: later) s
  = let o1 := synchronise self (cycle_env input) s in
    let o2 := main_loop gettz settings (Some interval) later (store o1) in
    mkOutcome (result o2) (store o2)
      (LogInfo "starting sync"
       :: effects o1 ++ LogInfo "sync done successfully" :: effects o2).
Proof.
  intros Hinit Hok. simpl. unfold bind, emit, lift. simpl.
  rewrite Hinit. simpl. rewrite Hok. simpl.
  by destruct (result (main_loop gettz settings (Some interval) later _)).
Qed.

(** X9.  With an interval the loop never ends by itself: whatever the
    cycles, it does not return [Finished]. *)
Theorem interval_loop_never_finishes (gettz : string -> option tzinfo)
    (settings : Settings) (interval : string) (cycles : list CycleInput)
    (s : gmap string Calendar) :
  result (main_loop gettz settings (Some interval) cycles s) <> Ok Finished.
Proof.
  revert s. induction cycles as [|input later IH]; intros s; [done|].
  simpl. unfold bind, emit, lift. simpl.
  destruct (__init__ gettz settings input) as [self|ex]; simpl; [|done].
  destruct (result (synchronise self (cycle_env input) s)); simpl; [|done].
  destruct (result (main_loop gettz settings (Some interval) later _))
    eqn:Hres; [|done].
  intros [= ->]. by apply (IH _ Hres).
Qed.

(** X10.  When the CalDAV calendar cannot be opened, the loop of [main]
    ends with that exception, whatever the remote feed would have
    answered, and no later cycle is started. *)
Theorem connect_failure_ends_main_loop (gettz : string -> option tzinfo)
    (settings : Settings) (sync_every : option string)
    (input : CycleInput) (later : list CycleInput)
    (s : gmap string Calendar) (ex : Exception) :
  local_calendar_result input = Raise ex ->
  main_loop gettz settings sync_every (input :: later) s
  = mkOutcome (Raise ex) s [LogInfo "starting sync"].
Proof.
  intros Hconnect. simpl. unfold bind, emit, lift, __init__. simpl.
  by rewrite Hconnect.
Qed.

(** X11.  A [TIMEZONE] that is absent, empty or unknown to [gettz] leaves
    every event as it is: the eligible events are source events,
    unchanged. *)
Theorem unknown_timezone_is_ignored (gettz : string -> option tzinfo)
    (settings : Settings) (input : CycleInput) (self : ICSToCalDAV) :
  __init__ gettz settings input = Ok self ->
  (arg_timezone settings = None
   \/ exists name, arg_timezone settings = Some name /\ gettz name = None) ->
  forall env remote_events,
    eligible self env remote_events
    = List.filter (passes self env) remote_events.
Proof.
  intros Hinit Hzone env remote_events.
  assert (timezone self = None) as Hnone.
  { unfold __init__ in Hinit.
    destruct (local_calendar_result input); [|done].
    destruct (remote_calendar_result input); [|done].
    injection Hinit as <-. simpl.
    destruct Hzone as [->|(name & -> & ->)]; done. }
  unfold eligible. f_equal. rewrite <- (List.map_id remote_events) at 2.
  apply List.map_ext. intros e. unfold apply_timezone. by rewrite Hnone.
Qed.

(** ** The store across a run *)

Section Store.

Variables (self : ICSToCalDAV) (env : Environment).

(** The second loop adds nothing to the store. *)
Lemma delete_events_store_sub ids s url c :
  store (delete_events self env ids s) !! url = Some c -> s !! url = Some c.
Proof.
  revert s. induction ids as [|id ids IH]; intros s; [done|].
  rewrite delete_events_cons.
  destruct (delete_result env (resource_url self id)); simpl; [done|].
  intros Hc%IH. by apply lookup_delete_Some in Hc as [_ Hc].
Qed.

(** It leaves alone every URL that is not one of its identities. *)
Lemma delete_events_store_other ids s url :
  (forall id, In id ids -> url <> resource_url self id) ->
  store (delete_events self env ids s) !! url = s !! url.
Proof.
  revert s. induction ids as [|id ids IH]; intros s Hother; [done|].
  rewrite delete_events_cons.
  destruct (delete_result env (resource_url self id)); simpl; [done|].
  rewrite IH by (intros id' Hin; apply Hother; by right).
  apply lookup_delete_ne. intros Heq. by apply (Hother id); [left|].
Qed.

(** When it returns, every one of its identities is gone. *)
Lemma delete_events_store_gone ids s id :
  result (delete_events self env ids s) = Ok tt ->
  In id ids ->
  store (delete_events self env ids s) !! resource_url self id = None.
Proof.
  revert s. induction ids as [|id' ids IH]; intros s Hok Hin; [done|].
  rewrite delete_events_cons in Hok |- *.
  destruct (delete_result env (resource_url self id')); [done|].
  simpl in Hok |- *.
  destruct (store (delete_events self env ids
                     (delete (resource_url self id') s))
              !! resource_url self id) as [c|] eqn:Hc; [|done].
  destruct Hin as [->|Hin].
  - apply delete_events_store_sub in Hc. by rewrite lookup_delete_eq in Hc.
  - by rewrite IH in Hc.
Qed.

(** With the ends known and no [try] block that ends the loop, an event
    whose create succeeds is in the store after the loop, under the name
    the library gives its UID: the resource holds the event, or a later
    eligible event stored under the same name. *)
Lemma save_remote_events_present evs s e :
  ends_known self evs ->
  (forall e0, In e0 (eligible self env evs) -> create_aborts env e0 = false) ->
  In e (eligible self env evs) ->
  create_result env e = None ->
  exists e', In e' (eligible self env evs)
             /\ saved_url self env (uid e') = saved_url self env (uid e)
             /\ store (save_remote_events self env evs s)
                  !! saved_url self env (uid e) = Some (_wrap e').
Proof.
  revert s. induction evs as [|h evs IH]; intros s Hends Hno Hin Hsave;
    [done|].
  destruct (skip_past_returns self env _ h Hends (or_introl eq_refl))
    as [skip Hskip].
  pose proof (ends_known_cons self _ _ Hends) as Hends'.
  rewrite save_remote_events_cons. rewrite eligible_cons in Hno, Hin |- *.
  unfold passes in Hno, Hin |- *. cbv zeta. rewrite Hskip in Hno, Hin |- *.
  destruct skip; [by apply IH|].
  set (h' := apply_timezone self h) in *.
  assert (forall e0, In e0 (eligible self env evs) ->
                     create_aborts env e0 = false) as Hrest
    by (intros e0 He0; apply Hno; by right).
  assert (forall s0,
    (exists e', In e' (eligible self env evs)
       /\ saved_url self env (uid e') = saved_url self env (uid e)
       /\ store (save_remote_events self env evs s0)
            !! saved_url self env (uid e) = Some (_wrap e')) ->
    exists e', In e' (h' :: eligible self env evs)
       /\ saved_url self env (uid e') = saved_url self env (uid e)
       /\ store (save_remote_events self env evs s0)
            !! saved_url self env (uid e) = Some (_wrap e')) as Hweaken.
  { intros s0 (e' & ? & ? & ?). exists e'. by split; [right|]. }
  pose proof (Hno h' (or_introl eq_refl)) as Hh.
  unfold create_aborts, create_result in Hh.
  destruct (serialize_result env h') as [ex|] eqn:Hser.
  { rewrite Hh. simpl. apply Hweaken.
    destruct Hin as [<-|Hin]; [|by apply IH].
    unfold create_result in Hsave. by rewrite Hser in Hsave. }
  destruct (save_event_result env (_wrap h')) as [ex|] eqn:Hres.
  - rewrite Hh. simpl. apply Hweaken.
    destruct Hin as [<-|Hin]; [|by apply IH].
    unfold create_result in Hsave. by rewrite Hser, Hres in Hsave.
  - simpl. destruct Hin as [<-|Hin]; [|by apply Hweaken, IH].
    destruct (save_remote_events_store self env evs
                (<[saved_url self env (uid h') := _wrap h']> s)
                (saved_url self env (uid h')))
      as [Hsame|(e0 & He0 & Heq & Hlook)].
    + exists h'. split; [by left|]. split; [done|].
      by rewrite Hsame, lookup_insert_eq.
    + exists e0. split; [by right|]. by split.
Qed.

(** A create that no handler catches keeps the first loop from
    returning. *)
Lemma save_remote_events_aborts evs s :
  (exists e, In e (eligible self env evs) /\ create_aborts env e = true) ->
  exists ex, result (save_remote_events self env evs s) = Raise ex
             /\ uncaught ex = true.
Proof.
  intros Habort.
  assert (exists ex, result (save_remote_events self env evs s) = Raise ex)
    as [ex Hraise].
  { revert s Habort.
    induction evs as [|h evs IH]; intros s (e & Hin & Habort); [done|].
    rewrite save_remote_events_cons. rewrite eligible_cons in Hin.
    unfold passes in Hin. cbv zeta.
    destruct (skip_past self env (apply_timezone self h)) as [[]|ex];
      [apply IH; eauto| |by exists ex].
    unfold create_aborts, create_result in Habort.
    destruct (serialize_result env (apply_timezone self h)) as [ex|]
      eqn:Hser.
    { destruct (uncaught ex) eqn:Hunc; simpl; [by exists ex|].
      apply IH. destruct Hin as [<-|Hin]; [|eauto].
      rewrite Hser in Habort. congruence. }
    destruct (save_event_result env (_wrap (apply_timezone self h)))
      as [ex|] eqn:Hres.
    - destruct (uncaught ex) eqn:Hunc; simpl; [by exists ex|].
      apply IH. destruct Hin as [<-|Hin]; [|eauto].
      rewrite Hser, Hres in Habort. congruence.
    - simpl. apply IH. destruct Hin as [<-|Hin]; [|eauto].
      by rewrite Hser, Hres in Habort. }
  exists ex. split; [done|]. by apply (save_remote_events_raise self env evs s).
Qed.

(** The listing misses no selected resource. *)
Lemma get_local_events_ids_complete s ids c id :
  result (_get_local_events_ids self env s) = Ok ids ->
  In c (selected self env s) ->
  first_uid c = Some id ->
  id ∈ ids.
Proof.
  intros (l & Hl%mapM_Some & ->)%get_local_events_ids_ok Hin Hc.
  apply elem_of_list_to_set.
  induction Hl as [|c' id' cs l Hc' Hl IH]; [done|].
  destruct Hin as [->|Hin].
  - rewrite Hc in Hc'. injection Hc' as <-. by left.
  - right. by apply IH.
Qed.

Lemma selected_resources s c :
  In c (selected self env s) -> In c (resources s).
Proof.
  unfold selected. destruct (sync_all self); [done|].
  by intros [? _]%filter_In.
Qed.

Lemma selected_same_test s s' c :
  In c (selected self env s) -> In c (resources s') ->
  In c (selected self env s').
Proof.
  unfold selected. destruct (sync_all self); [done|].
  rewrite !filter_In. tauto.
Qed.

Lemma get_local_events_ids_raise s ex :
  listing_result env = Some ex ->
  result (_get_local_events_ids self env s) = Raise ex
  /\ (sync_all self = false -> ex = ReportError ->
      In (LogCritical search_failed_msg)
         (effects (_get_local_events_ids self env s))).
Proof.
  intros Hfail.
  unfold _get_local_events_ids, bind, try_except, local_calendar_events,
    local_calendar_search. rewrite Hfail.
  destruct (sync_all self); simpl; [done|].
  destruct ex; simpl; try done.
  split; [done|]. intros _ _. right. by left.
Qed.

(** A run that returns with deletion enabled has been through its three
    phases. *)
Lemma synchronise_ok_inv s :
  keep_local self = false ->
  result (synchronise self env s) = Ok tt ->
  let o1 := save_remote_events self env (events (remote_calendar self)) s in
  result o1 = Ok tt
  /\ exists ids,
       result (_get_local_events_ids self env (store o1)) = Ok ids
       /\ result (delete_events self env
                    (elements (events_to_delete self ids)) (store o1)) = Ok tt
       /\ store (synchronise self env s)
          = store (delete_events self env
                     (elements (events_to_delete self ids)) (store o1)).
Proof.
  intros Hkeep. rewrite synchronise_phases. cbv zeta.
  set (o1 := save_remote_events self env (events (remote_calendar self)) s).
  destruct (result o1) as [[]|ex]; simpl; [|done]. rewrite Hkeep.
  destruct (result (_get_local_events_ids self env (store o1))) as [ids|ex];
    simpl; [|done].
  destruct (result (delete_events self env _ (store o1))) as [[]|ex] eqn:Hdel;
    simpl; [|done].
  intros _. split; [done|]. exists ids. by rewrite Hdel.
Qed.

(** What a run leaves in the store was there after its first loop. *)
Lemma synchronise_store_sub s url c :
  store (synchronise self env s) !! url = Some c ->
  store (save_remote_events self env (events (remote_calendar self)) s)
    !! url = Some c.
Proof.
  rewrite synchronise_phases. cbv zeta.
  set (o1 := save_remote_events self env (events (remote_calendar self)) s).
  destruct (result o1); simpl; [|done].
  destruct (keep_local self); simpl; [done|].
  destruct (result (_get_local_events_ids self env (store o1))); simpl;
    [|done].
  destruct (result (delete_events self env _ (store o1))); simpl;
    apply delete_events_store_sub.
Qed.

(** The resource of a source identity is, after the run, as the first loop
    left it. *)
Lemma synchronise_store_source s e :
  In e (events (remote_calendar self)) ->
  store (synchronise self env s) !! resource_url self (uid e)
  = store (save_remote_events self env (events (remote_calendar self)) s)
      !! resource_url self (uid e).
Proof.
  intros Hin. rewrite synchronise_phases. cbv zeta.
  set (o1 := save_remote_events self env (events (remote_calendar self)) s).
  destruct (result o1); simpl; [|done].
  destruct (keep_local self); simpl; [done|].
  destruct (result (_get_local_events_ids self env (store o1))) as [ids|];
    simpl; [|done].
  assert (forall id, In id (elements (events_to_delete self ids)) ->
                     resource_url self (uid e) <> resource_url self id)
    as Hother.
  { intros id Hid%list_elem_of_In%elem_of_elements Heq%resource_url_inj.
    unfold events_to_delete in Hid.
    apply elem_of_difference in Hid as [_ Hsrc]. apply Hsrc.
    rewrite remote_events_ids_all, elem_of_list_to_set, <- Heq.
    apply list_elem_of_In. by apply in_map. }
  destruct (result (delete_events self env _ (store o1))); simpl;
    by apply delete_events_store_other.
Qed.

End Store.

(** ** What a run does to the destination *)

(** X12.  With [keep_local] set a run sends no listing request and no
    delete; it removes nothing from the destination, and a resource whose
    URL is not one the library stores a source identity under is left
    exactly as it was. *)
Theorem keep_local_never_deletes (self : ICSToCalDAV) (env : Environment)
    (s : gmap string Calendar) :
  keep_local self = true ->
  listings (effects (synchronise self env s)) = []
  /\ deleted (effects (synchronise self env s)) = []
  /\ (forall url, is_Some (s !! url) ->
                  is_Some (store (synchronise self env s) !! url))
  /\ (forall url,
        (forall e, In e (events (remote_calendar self)) ->
                   url <> saved_url self env (uid e)) ->
        store (synchronise self env s) !! url = s !! url).
Proof.
  intros Hkeep.
  assert (store (synchronise self env s)
          = store (save_remote_events self env
                     (events (remote_calendar self)) s)
          /\ listings (effects (synchronise self env s)) = []
          /\ deleted (effects (synchronise self env s)) = [])
    as (Hstore & Hl & Hd).
  { rewrite synchronise_phases. cbv zeta.
    destruct (save_remote_events_quiet self env
                (events (remote_calendar self)) s) as [Hd1 Hl1].
    destruct (result (save_remote_events self env _ s)); simpl; [|done].
    rewrite Hkeep. simpl. by rewrite listings_app, deleted_app, Hd1, Hl1. }
  split; [done|]. split; [done|]. rewrite Hstore. split.
  - intros url Hsome.
    destruct (save_remote_events_store self env
                (events (remote_calendar self)) s url)
      as [->|(e & _ & _ & ->)]; [done|by eexists].
  - intros url Hother.
    destruct (save_remote_events_store self env
                (events (remote_calendar self)) s url)
      as [Hsame|(e & He%eligible_uid & -> & _)]; [done|].
    apply in_map_iff in He as (e0 & Huid & He0).
    exfalso. apply (Hother e0 He0). by rewrite Huid.
Qed.


(** X14.  In a run whose first loop nothing ends (the ends are known and
    no create raises an exception the handlers let through), with source
    UIDs the library stores unquoted, an eligible event whose create
    succeeds is in the destination afterwards: the resource of its identity
    holds the event, or a later eligible event of the same UID, wrapped. *)
Theorem created_events_are_present (self : ICSToCalDAV) (env : Environment)
    (s : gmap string Calendar) (e : Event) :
  ends_known self (events (remote_calendar self)) ->
  stored_unquoted env (events (remote_calendar self)) ->
  (forall e0, In e0 (eligible self env (events (remote_calendar self))) ->
              create_aborts env e0 = false) ->
  In e (eligible self env (events (remote_calendar self))) ->
  create_result env e = None ->
  exists e',
    In e' (eligible self env (events (remote_calendar self)))
    /\ uid e' = uid e
    /\ store (synchronise self env s) !! resource_url self (uid e)
       = Some (_wrap e').
Proof.
  intros Hends Hplain Hno Hin Hsave.
  destruct (save_remote_events_present self env _ s e Hends Hno Hin Hsave)
    as (e' & He' & Hurl & Hlook).
  rewrite (saved_url_unquoted self env _ e Hplain Hin) in Hurl, Hlook.
  rewrite (saved_url_unquoted self env _ e' Hplain He') in Hurl.
  exists e'. split; [done|]. split; [by apply resource_url_inj in Hurl|].
  pose proof (eligible_uid self env e _ Hin) as Hsrc.
  apply in_map_iff in Hsrc as (e0 & Huid0 & He0).
  rewrite <- Huid0, synchronise_store_source by done.
  by rewrite Huid0.
Qed.

(** X15.  A full sync that returns, with source UIDs the library stores
    unquoted, every create stored and deletion enabled, on a destination
    whose resources are named after their UIDs, leaves exactly the source
    identities: a URL holds a resource afterwards if and only if it is the
    URL of the UID of a source event. *)
Theorem full_sync_converges (self : ICSToCalDAV) (env : Environment)
    (s : gmap string Calendar) :
  sync_all self = true ->
  keep_local self = false ->
  named_by_uid self s ->
  stored_unquoted env (events (remote_calendar self)) ->
  (forall e, In e (eligible self env (events (remote_calendar self))) ->
             create_result env e = None) ->
  result (synchronise self env s) = Ok tt ->
  forall url,
    is_Some (store (synchronise self env s) !! url)
    <-> exists e, In e (events (remote_calendar self))
                  /\ url = resource_url self (uid e).
Proof.
  intros Hall Hkeep Hnamed Hplain Hsaved Hok url.
  destruct (synchronise_ok_inv self env s Hkeep Hok)
    as (Hok1 & ids & Hids & Hdel & Hstore).
  set (s1 := store (save_remote_events self env
                      (events (remote_calendar self)) s)) in *.
  assert (ends_known self (events (remote_calendar self))) as Hends
    by (by left).
  assert (forall e0, In e0 (eligible self env (events (remote_calendar self)))
                     -> create_aborts env e0 = false) as Hno.
  { intros e0 He0. unfold create_aborts. by rewrite Hsaved. }
  split.
  - intros [c Hc].
    pose proof (synchronise_store_sub self env s url c Hc) as Hc1.
    fold s1 in Hc1.
    destruct (save_remote_events_named self env _ s Hplain Hnamed url c Hc1)
      as (id & Hfirst & ->).
    assert (id ∈ ids) as Hid.
    { apply (get_local_events_ids_complete self env s1 ids c id Hids);
        [|done].
      unfold selected. rewrite Hall. apply resources_lookup. eauto. }
    destruct (decide (id ∈ remote_events_ids self)) as [Hsrc|Hstale].
    + rewrite remote_events_ids_all, elem_of_list_to_set in Hsrc.
      apply list_elem_of_In, in_map_iff in Hsrc as (e & <- & He).
      by exists e.
    + exfalso. rewrite Hstore in Hc.
      rewrite (delete_events_store_gone self env _ s1 id Hdel) in Hc;
        [done|].
      apply list_elem_of_In, elem_of_elements.
      unfold events_to_delete. by apply elem_of_difference.
  - intros (e & He & ->).
    assert (In (apply_timezone self e)
               (eligible self env (events (remote_calendar self)))) as Hel.
    { apply eligible_In. split; [by apply in_map|].
      by apply passes_sync_all. }
    destruct (save_remote_events_present self env
                (events (remote_calendar self)) s _ Hends Hno Hel
                (Hsaved _ Hel)) as (e' & _ & _ & Hlook).
    rewrite (saved_url_unquoted self env (events (remote_calendar self)))
      in Hlook by done.
    rewrite apply_timezone_uid in Hlook.
    rewrite (synchronise_store_source self env s e He).
    by rewrite Hlook.
Qed.

(** X16.  When the listing request fails after a first loop that nothing
    ended (the ends are known and no create raises an exception the
    handlers let through), the run ends with the listing's exception: every
    eligible event [_wrap] returns for has been submitted and stays as
    created, and nothing is deleted.  In future-only mode a [ReportError] is
    logged as critical first. *)
Theorem listing_failure_keeps_creates (self : ICSToCalDAV)
    (env : Environment) (s : gmap string Calendar) (ex : Exception) :
  keep_local self = false ->
  ends_known self (events (remote_calendar self)) ->
  (forall e, In e (eligible self env (events (remote_calendar self))) ->
             create_aborts env e = false) ->
  listing_result env = Some ex ->
  result (synchronise self env s) = Raise ex
  /\ saved (effects (synchronise self env s))
     = List.map _wrap
         (List.filter (wrapped env)
            (eligible self env (events (remote_calendar self))))
  /\ deleted (effects (synchronise self env s)) = []
  /\ store (synchronise self env s)
     = store (save_remote_events self env (events (remote_calendar self)) s)
  /\ (sync_all self = false -> ex = ReportError ->
      In (LogCritical search_failed_msg) (effects (synchronise self env s))).
Proof.
  intros Hkeep Hends Hno Hfail.
  split; [|split; [by rewrite synchronise_saved, submitted_complete|]].
  all: rewrite synchronise_phases; cbv zeta.
  all: destruct (save_remote_events_complete self env _ s Hends Hno)
         as [Hok1 _].
  all: destruct (save_remote_events_quiet self env
                   (events (remote_calendar self)) s) as [Hd1 _].
  all: set (o1 := save_remote_events self env
                    (events (remote_calendar self)) s) in *.
  all: destruct (get_local_events_ids_raise self env (store o1) ex Hfail)
         as [Hraise Hlog].
  all: destruct (get_local_events_ids_effects self env (store o1))
         as (_ & Hd2 & _).
  all: rewrite Hok1, Hkeep, Hraise; simpl.
  - done.
  - split; [by rewrite deleted_app, Hd1; simpl; rewrite Hd2|].
    split; [done|]. intros Hmode Hex. apply in_or_app. right. right.
    by apply Hlog.
Qed.

(** X17.  A create that raises an exception no handler catches ends the
    run with an exception of that kind, before any listing request and any
    delete. *)
Theorem uncaught_create_error_ends_run (self : ICSToCalDAV)
    (env : Environment) (s : gmap string Calendar) (e : Event) :
  In e (eligible self env (events (remote_calendar self))) ->
  create_aborts env e = true ->
  exists ex,
    result (synchronise self env s) = Raise ex
    /\ uncaught ex = true
    /\ listings (effects (synchronise self env s)) = []
    /\ deleted (effects (synchronise self env s)) = [].
Proof.
  intros Hin Habort.
  destruct (save_remote_events_aborts self env
              (events (remote_calendar self)) s) as (ex & Hraise & Hunc);
    [by exists e|].
  destruct (save_remote_events_quiet self env
              (events (remote_calendar self)) s) as [Hd1 Hl1].
  exists ex. rewrite synchronise_phases. cbv zeta. rewrite Hraise. simpl.
  by rewrite Hd1, Hl1.
Qed.

(** X18.  The second loop adds nothing to the store, leaves alone every
    URL that is not the resource of one of its identities, and, when it
    returns, has removed the resource of each of them. *)
Theorem delete_events_store (self : ICSToCalDAV) (env : Environment)
    (ids : list string) (s : gmap string Calendar) :
  (forall url c, store (delete_events self env ids s) !! url = Some c ->
                 s !! url = Some c)
  /\ (forall url, (forall id, In id ids -> url <> resource_url self id) ->
                  store (delete_events self env ids s) !! url = s !! url)
  /\ (result (delete_events self env ids s) = Ok tt ->
      forall id, In id ids ->
                 store (delete_events self env ids s)
                   !! resource_url self id = None).
Proof.
  split; [apply delete_events_store_sub|].
  split; [apply delete_events_store_other|].
  intros Hok id Hin. by apply delete_events_store_gone.
Qed.

Lemma synchronise_named (self : ICSToCalDAV) (env : Environment)
    (s : gmap string Calendar) :
  stored_unquoted env (events (remote_calendar self)) ->
  named_by_uid self s ->
  named_by_uid self (store (synchronise self env s)).
Proof.
  intros Hplain Hnamed url c Hc%synchronise_store_sub.
  by apply (save_remote_events_named self env
              (events (remote_calendar self)) s Hplain Hnamed url c).
Qed.

(** X19.  With source UIDs the library stores unquoted, a run keeps the
    destination's naming: if every resource was stored under the URL of its
    UID before the run, so is every resource after it. *)
Theorem synchronise_keeps_naming (self : ICSToCalDAV) (env : Environment)
    (s : gmap string Calendar) :
  stored_unquoted env (events (remote_calendar self)) ->
  named_by_uid self s ->
  named_by_uid self (store (synchronise self env s)).
Proof.
  intros Hplain Hnamed url c Hc.
  destruct (synchronise_named self env s Hplain Hnamed url c Hc)
    as (id & Hid & ->).
  by exists id.
Qed.

(** X20.  A second run straight after a run that returned, with the same
    source, clock readings and server behaviour, deletes nothing: the first
    run has removed all there was to remove. *)
Theorem second_run_deletes_nothing (self : ICSToCalDAV) (env : Environment)
    (s : gmap string Calendar) :
  keep_local self = false ->
  named_by_uid self s ->
  result (synchronise self env s) = Ok tt ->
  deleted (effects (synchronise self env (store (synchronise self env s))))
  = [].
Proof.
  intros Hkeep Hnamed Hok.
  destruct (synchronise_ok_inv self env s Hkeep Hok)
    as (_ & ids & Hids & Hdel & Hstore).
  set (s1 := store (save_remote_events self env
                      (events (remote_calendar self)) s)) in *.
  set (s2 := store (synchronise self env s)) in *.
  destruct (deleted (effects (synchronise self env s2))) as [|url rest]
    eqn:Hdeleted; [done|].
  exfalso.
  assert (In url (deleted (effects (synchronise self env s2)))) as Hin
    by (rewrite Hdeleted; by left).
  apply synchronise_deleted in Hin as (_ & ids' & id & Hids' & Hid & ->).
  unfold events_to_delete in Hid.
  apply elem_of_difference in Hid as [Hlisted Hstale].
  assert (~ In id (List.map uid (events (remote_calendar self)))) as Hnew.
  { intros Hsource. apply Hstale.
    rewrite remote_events_ids_all, elem_of_list_to_set.
    by apply list_elem_of_In. }
  destruct (get_local_events_ids_elem self env _ ids' id Hids' Hlisted)
    as (c & Hsel & Hfirst).
  pose proof (selected_resources self env _ c Hsel) as Hres.
  apply resources_lookup in Hres as [url Hurl].
  pose proof (save_remote_events_old self env _ s2 url c id Hurl Hfirst Hnew)
    as Hc2.
  assert (s1 !! url = Some c) as Hc1.
  { rewrite Hstore in Hc2. by apply delete_events_store_sub in Hc2. }
  pose proof (save_remote_events_old self env _ s url c id Hc1 Hfirst Hnew)
    as Hc0.
  destruct (Hnamed url c Hc0) as (id' & Hfirst' & ->).
  rewrite Hfirst in Hfirst'. injection Hfirst' as <-.
  assert (id ∈ ids) as Hid1.
  { apply (get_local_events_ids_complete self env s1 ids c id Hids);
      [|done].
    apply (selected_same_test self env _ s1 c Hsel).
    apply resources_lookup. eauto. }
  rewrite Hstore in Hc2.
  rewrite (delete_events_store_gone self env _ s1 id Hdel) in Hc2; [done|].
  apply list_elem_of_In, elem_of_elements.
  unfold events_to_delete. by apply elem_of_difference.
Qed.

(** ** The further properties at concrete inputs *)

Lemma named_by_uid_put (self : ICSToCalDAV) (id : string) (finish : datetime)
    (s : gmap string Calendar) :
  calendar_url self = "https://dav/cal/" ->
  named_by_uid self s ->
  named_by_uid self (put id finish s).
Proof.
  intros Hurl Hnamed. unfold put.
  replace (resource_url (syncer [] false false) id)
    with (resource_url self (uid (ev id finish)))
    by (unfold resource_url; by rewrite Hurl).
  by apply named_by_uid_insert.
Qed.

Lemma required_variables_set (extra : list (string * string)) (v : string) :
  (forall kv, In kv extra -> True) ->
  In v required_variables -> is_Some (environ0 extra v).
Proof.
  intros _ Hin. unfold environ0.
  destruct (find _ extra) as [kv|]; [by eexists|].
  destruct Hin as [<-|[<-|[<-|[<-|[<-|[]]]]]]; by eexists.
Qed.

Lemma aware_end_window_witness :
  sync_all source_xy = false
  /\ In y_future [x_past; y_future]
  /\ end_ (apply_timezone source_xy y_future) = Some (utc 1100)
  /\ utcoffset (utc 1100) = Some 0
  /\ (In (apply_timezone source_xy y_future)
         (eligible source_xy (quiet 1000) [x_past; y_future])
      <-> now_aware (quiet 1000) <= wall (utc 1100) - 0).
Proof.
  split; [reflexivity|]. split; [right; by left|]. split; [reflexivity|].
  split; [reflexivity|].
  apply (aware_end_window source_xy (quiet 1000) [x_past; y_future]
           y_future (utc 1100) 0).
  - reflexivity.
  - right. by left.
  - reflexivity.
  - reflexivity.
Defined.

Lemma eligible_shrinks_with_time_witness :
  now_naive (quiet 1000) <= now_naive (quiet 1050)
  /\ now_aware (quiet 1000) <= now_aware (quiet 1050)
  /\ In y_future (eligible source_xy (quiet 1050) [x_past; y_future])
  /\ In y_future (eligible source_xy (quiet 1000) [x_past; y_future]).
Proof.
  assert (In y_future (eligible source_xy (quiet 1050) [x_past; y_future]))
    as Hlater by (by left).
  split; [by vm_compute|]. split; [by vm_compute|]. split; [exact Hlater|].
  apply (eligible_shrinks_with_time source_xy (quiet 1000) (quiet 1050)
           [x_past; y_future] y_future).
  - by vm_compute.
  - by vm_compute.
  - exact Hlater.
Defined.

Lemma eligible_keeps_wall_clock_witness :
  let e' := apply_timezone (zoned [y_future]) y_future in
  In e' (eligible (zoned [y_future]) (quiet 1000) [y_future])
  /\ option_map dt_tzinfo (end_ e') = Some (Some new_york)
  /\ exists e,
       In e [y_future]
       /\ uid e' = uid e
       /\ option_map wall (begin e') = option_map wall (begin e)
       /\ option_map wall (end_ e') = option_map wall (end_ e)
       /\ all_day e' = all_day e
       /\ description e' = description e
       /\ (is_all_day e = true -> e' = e)
       /\ (timezone (zoned [y_future]) = None -> e' = e).
Proof.
  split; [by left|]. split; [reflexivity|].
  apply (eligible_keeps_wall_clock (zoned [y_future]) (quiet 1000)
           [y_future] (apply_timezone (zoned [y_future]) y_future)).
  by left.
Defined.

Lemma missing_variable_stops_main_witness :
  In "LOCAL_PASSWORD" required_variables
  /\ environ_incomplete "LOCAL_PASSWORD" = None
  /\ exists before first after,
       required_variables = before ++ first :: after
       /\ (forall v, In v before -> is_Some (environ_incomplete v))
       /\ environ_incomplete first = None
       /\ main no_zone any_interval environ_incomplete
            [cycle_ok [y_future] 1000] store_z
          = mkOutcome (Raise (EnvironmentUnset first)) store_z [].
Proof.
  split; [do 4 right; by left|]. split; [reflexivity|].
  apply (missing_variable_stops_main no_zone any_interval environ_incomplete
           [cycle_ok [y_future] 1000] store_z "LOCAL_PASSWORD").
  - do 4 right. by left.
  - reflexivity.
Defined.

Lemma settings_from_environment_witness :
  environ0 [("SYNC_ALL", "0")] "SYNC_ALL" = Some "0"
  /\ exists st,
       read_settings (environ0 [("SYNC_ALL", "0")]) = Ok st
       /\ arg_sync_all st = true.
Proof.
  split; [reflexivity|].
  destruct (settings_from_environment (environ0 [("SYNC_ALL", "0")]))
    as (st & Hst & _ & _ & _ & _ & _ & Hall & _).
  - intros v Hin. by apply required_variables_set.
  - exists st. split; [exact Hst|]. apply Hall. by exists "0".
Defined.

Lemma invalid_sync_every_stops_main_witness :
  environ0 [("SYNC_EVERY", "soon")] "SYNC_EVERY" = Some "soon"
  /\ no_interval ("in " +:+ "soon") = false
  /\ main no_zone no_interval (environ0 [("SYNC_EVERY", "soon")])
       [cycle_ok [y_future] 1000] store_z
     = mkOutcome (Raise ValueError) store_z [].
Proof.
  split; [reflexivity|]. split; [reflexivity|].
  apply (invalid_sync_every_stops_main no_zone no_interval
           (environ0 [("SYNC_EVERY", "soon")]) [cycle_ok [y_future] 1000]
           store_z "soon").
  - intros v Hin. by apply required_variables_set.
  - reflexivity.
  - reflexivity.
Defined.

Lemma cycles_run_in_sequence_witness :
  let self := syncer [y_future] false false in
  let input := cycle_ok [y_future] 1000 in
  let later := [cycle_ok [a_future] 1050] in
  __init__ no_zone (settings0 false) input = Ok self
  /\ result (synchronise self (cycle_env input) store_z) = Ok tt
  /\ main_loop no_zone (settings0 false) (Some "in 1 hour")
       (input :: later) store_z
     = (let o1 := synchronise self (cycle_env input) store_z in
        let o2 := main_loop no_zone (settings0 false) (Some "in 1 hour")
                    later (store o1) in
        mkOutcome (result o2) (store o2)
          (LogInfo "starting sync"
           :: effects o1 ++ LogInfo "sync done successfully" :: effects o2)).
Proof.
  split; [reflexivity|]. split; [by vm_compute|].
  apply (cycles_run_in_sequence no_zone (settings0 false) "in 1 hour"
           (cycle_ok [y_future] 1000) [cycle_ok [a_future] 1050] store_z
           (syncer [y_future] false false)).
  - reflexivity.
  - by vm_compute.
Defined.

Lemma connect_failure_ends_main_loop_witness :
  local_calendar_result (cycle_connect_fails 1000) = Raise connection_error
  /\ main_loop no_zone (settings0 false) (Some "in 1 hour")
       (cycle_connect_fails 1000 :: [cycle_ok [y_future] 1050]) store_z
     = mkOutcome (Raise connection_error) store_z [LogInfo "starting sync"].
Proof.
  split; [reflexivity|].
  apply (connect_failure_ends_main_loop no_zone (settings0 false)
           (Some "in 1 hour") (cycle_connect_fails 1000)
           [cycle_ok [y_future] 1050] store_z connection_error).
  reflexivity.
Defined.

Lemma unknown_timezone_is_ignored_witness :
  let self := syncer [y_future] false false in
  __init__ no_zone (settings_tz "Mars/Olympus") (cycle_ok [y_future] 1000)
    = Ok self
  /\ no_zone "Mars/Olympus" = None
  /\ eligible self (quiet 1000) [x_past; y_future]
     = List.filter (passes self (quiet 1000)) [x_past; y_future].
Proof.
  split; [reflexivity|]. split; [reflexivity|].
  apply (unknown_timezone_is_ignored no_zone (settings_tz "Mars/Olympus")
           (cycle_ok [y_future] 1000) (syncer [y_future] false false)).
  - reflexivity.
  - right. by exists "Mars/Olympus".
Defined.

Lemma named_store_p_z (self : ICSToCalDAV) :
  calendar_url self = "https://dav/cal/" -> named_by_uid self store_p_z.
Proof.
  intros Hurl. unfold store_p_z, store_z.
  by repeat apply named_by_uid_put; [..|apply named_by_uid_empty].
Qed.

Lemma named_store_x_z (self : ICSToCalDAV) :
  calendar_url self = "https://dav/cal/" -> named_by_uid self store_x_z.
Proof.
  intros Hurl. unfold store_x_z.
  by repeat apply named_by_uid_put; [..|apply named_by_uid_empty].
Qed.

Lemma keep_local_never_deletes_witness :
  let self := syncer [y_future] false true in
  keep_local self = true
  /\ listings (effects (synchronise self (quiet 1000) store_p_z)) = []
  /\ deleted (effects (synchronise self (quiet 1000) store_p_z)) = []
  /\ (forall url, is_Some (store_p_z !! url) ->
                  is_Some (store (synchronise self (quiet 1000) store_p_z)
                             !! url))
  /\ (forall url,
        (forall e, In e (events (remote_calendar self)) ->
                   url <> saved_url self (quiet 1000) (uid e)) ->
        store (synchronise self (quiet 1000) store_p_z) !! url
        = store_p_z !! url).
Proof.
  split; [reflexivity|].
  apply (keep_local_never_deletes (syncer [y_future] false true)
           (quiet 1000) store_p_z).
  reflexivity.
Defined.


Lemma created_events_are_present_witness :
  ends_known source_xy (events (remote_calendar source_xy))
  /\ stored_unquoted (quiet 1000) (events (remote_calendar source_xy))
  /\ In y_future
       (eligible source_xy (quiet 1000) (events (remote_calendar source_xy)))
  /\ create_result (quiet 1000) y_future = None
  /\ exists e',
       In e' (eligible source_xy (quiet 1000)
                (events (remote_calendar source_xy)))
       /\ uid e' = uid y_future
       /\ store (synchronise source_xy (quiet 1000) store_z)
            !! resource_url source_xy (uid y_future)
          = Some (_wrap e').
Proof.
  split; [apply ends_known_xy|]. split; [intros e _; reflexivity|].
  split; [by left|]. split; [reflexivity|].
  apply (created_events_are_present source_xy (quiet 1000) store_z y_future).
  - apply ends_known_xy.
  - intros e _. reflexivity.
  - intros e0 _. reflexivity.
  - by left.
  - reflexivity.
Defined.

Lemma full_sync_converges_witness :
  let self := syncer [x_past; y_future] true false in
  sync_all self = true
  /\ keep_local self = false
  /\ named_by_uid self store_p_z
  /\ stored_unquoted (quiet 1000) (events (remote_calendar self))
  /\ result (synchronise self (quiet 1000) store_p_z) = Ok tt
  /\ forall url,
       is_Some (store (synchronise self (quiet 1000) store_p_z) !! url)
       <-> exists e, In e (events (remote_calendar self))
                     /\ url = resource_url self (uid e).
Proof.
  assert (named_by_uid (syncer [x_past; y_future] true false) store_p_z)
    as Hnamed by (by apply named_store_p_z).
  split; [reflexivity|]. split; [reflexivity|]. split; [exact Hnamed|].
  split; [intros e _; reflexivity|]. split; [by vm_compute|].
  apply (full_sync_converges (syncer [x_past; y_future] true false)
           (quiet 1000) store_p_z).
  - reflexivity.
  - reflexivity.
  - exact Hnamed.
  - intros e _. reflexivity.
  - intros e _. reflexivity.
  - by vm_compute.
Defined.

Lemma listing_failure_keeps_creates_witness :
  let self := source_xy in
  let env := failing_listing ReportError 1000 in
  keep_local self = false
  /\ ends_known self (events (remote_calendar self))
  /\ listing_result env = Some ReportError
  /\ result (synchronise self env store_z) = Raise ReportError
  /\ saved (effects (synchronise self env store_z))
     = List.map _wrap
         (List.filter (wrapped env)
            (eligible self env (events (remote_calendar self))))
  /\ deleted (effects (synchronise self env store_z)) = []
  /\ store (synchronise self env store_z)
     = store (save_remote_events self env (events (remote_calendar self))
                store_z)
  /\ (sync_all self = false -> ReportError = ReportError ->
      In (LogCritical search_failed_msg)
         (effects (synchronise self env store_z))).
Proof.
  split; [reflexivity|]. split; [apply ends_known_xy|].
  split; [reflexivity|].
  apply (listing_failure_keeps_creates source_xy
           (failing_listing ReportError 1000) store_z ReportError).
  - reflexivity.
  - apply ends_known_xy.
  - intros e _. reflexivity.
  - reflexivity.
Defined.

Lemma uncaught_create_error_ends_run_witness :
  let self := source_ab false in
  let env := failing_save "a" connection_error 1000 in
  In a_future (eligible self env (events (remote_calendar self)))
  /\ create_aborts env a_future = true
  /\ exists ex,
       result (synchronise self env store_z) = Raise ex
       /\ uncaught ex = true
       /\ listings (effects (synchronise self env store_z)) = []
       /\ deleted (effects (synchronise self env store_z)) = [].
Proof.
  split; [by left|]. split; [reflexivity|].
  apply (uncaught_create_error_ends_run (source_ab false)
           (failing_save "a" connection_error 1000) store_z a_future).
  - by left.
  - reflexivity.
Defined.

Lemma delete_events_store_witness :
  let self := syncer [] false false in
  result (delete_events self (quiet 1000) ["a"] store_a_b) = Ok tt
  /\ store (delete_events self (quiet 1000) ["a"] store_a_b)
       !! resource_url self "a" = None
  /\ store (delete_events self (quiet 1000) ["a"] store_a_b)
       !! resource_url self "b" = store_a_b !! resource_url self "b".
Proof.
  destruct (delete_events_store (syncer [] false false) (quiet 1000) ["a"]
              store_a_b) as (_ & Hother & Hgone).
  split; [reflexivity|]. split.
  - apply Hgone; [reflexivity|by left].
  - apply Hother. intros id [<-|[]]. by vm_compute.
Defined.

Lemma synchronise_keeps_naming_witness :
  stored_unquoted (quiet 1000) (events (remote_calendar source_xy))
  /\ named_by_uid source_xy store_p_z
  /\ named_by_uid source_xy
       (store (synchronise source_xy (quiet 1000) store_p_z)).
Proof.
  assert (named_by_uid source_xy store_p_z) as Hnamed
    by (by apply named_store_p_z).
  split; [intros e _; reflexivity|]. split; [exact Hnamed|].
  apply (synchronise_keeps_naming source_xy (quiet 1000) store_p_z).
  - intros e _. reflexivity.
  - exact Hnamed.
Defined.

Lemma second_run_deletes_nothing_witness :
  keep_local source_xy = false
  /\ named_by_uid source_xy store_x_z
  /\ result (synchronise source_xy (quiet 1000) store_x_z) = Ok tt
  /\ deleted (effects (synchronise source_xy (quiet 1000) store_x_z))
     = [resource_url source_xy "z"]
  /\ deleted (effects (synchronise source_xy (quiet 1000)
                         (store (synchronise source_xy (quiet 1000)
                                   store_x_z)))) = [].
Proof.
  assert (named_by_uid source_xy store_x_z) as Hnamed
    by (by apply named_store_x_z).
  split; [reflexivity|]. split; [exact Hnamed|].
  split; [by vm_compute|]. split; [by vm_compute|].
  apply (second_run_deletes_nothing source_xy (quiet 1000) store_x_z).
  - reflexivity.
  - exact Hnamed.
  - by vm_compute.
Defined.

